(** * LABDEMO: the RF-lab dashboard of [LABDEMO.py]

    A shallow embedding of the dashboard's server-side logic: the module-level
    globals, the serial helpers, the Dash callbacks and the client-side
    [dcc.Store] components the callbacks read and write.

    - Python [float]s are binary64 numbers: Rocq's primitive floats.
    - A callback is a computation over the module globals that either returns
      or raises; what it has mutated before raising stays mutated.
    - The synthetic spectrum uses [np.exp], which has no counterpart among the
      primitive float operations; [update_spectrum] is therefore read over the
      real numbers (module [Spectrum]). *)

From Stdlib Require Import Bool Arith List String Ascii Lia.
From Stdlib Require Import Floats.
From Stdlib Require Import Reals Lra.
From Stdlib Require Import Sorted Permutation.
Import ListNotations.

Set Warnings "-inexact-float".
Local Open Scope bool_scope.
Local Open Scope list_scope.
Local Open Scope string_scope.

(** ** Python values and exceptions *)

(** The exception classes the callbacks can meet. *)
Inductive exn_class : Type :=
| IndexError
| ValueError
| SerialException
| OtherException.

(** An exception: its class and [str(e)]. *)
Record exn : Type := mkExn { exn_kind : exn_class; exn_msg : string }.

Definition is_SerialException (e : exn) : bool :=
  match exn_kind e with SerialException => true | _ => false end.

Inductive result (A : Type) : Type :=
| Ok (a : A)
| Raise (e : exn).
Arguments Ok {A} a.
Arguments Raise {A} e.

(** Line feed, and the byte strings written to the motor controller. *)
Definition LF : string := String "010"%char EmptyString.
Definition cmd_STEP : string := "STEP" ++ LF.
Definition cmd_CW : string := ":CW" ++ LF.
Definition cmd_CCW : string := ":CCW" ++ LF.
Definition cmd_STOP : string := ":STOP" ++ LF.

(** ** Module globals *)

(** A [serial.Serial] instance: the port it was built for and [is_open]. *)
Record Serial : Type := mkSerial { port_name : string; is_open : bool }.

(** The [DataFrame] read from a CSV: rows of (Angle, Signal). *)
Definition DataFrame : Type := list (float * float).

Definition column_Angle (d : DataFrame) : list float := map fst d.
Definition column_Signal (d : DataFrame) : list float := map snd d.

(** The globals of the module, and [wire]: what has been written to serial
    ports so far, oldest first, each entry a port and the bytes sent. *)
Record Globals : Type := mkGlobals {
  df : DataFrame;
  angles : list float;
  signals : list float;
  pattern_power : float;
  ser : option Serial;
  simulation : bool;
  idx : nat;
  x_data : list float;
  y_data : list float;
  wire : list (string * string)
}.

Definition set_table (d : DataFrame) (g : Globals) : Globals :=
  mkGlobals d (angles g) (signals g) (pattern_power g) (ser g) (simulation g)
            (idx g) (x_data g) (y_data g) (wire g).
Definition set_columns (a s : list float) (g : Globals) : Globals :=
  mkGlobals (df g) a s (pattern_power g) (ser g) (simulation g)
            (idx g) (x_data g) (y_data g) (wire g).
Definition set_pattern_power (p : float) (g : Globals) : Globals :=
  mkGlobals (df g) (angles g) (signals g) p (ser g) (simulation g)
            (idx g) (x_data g) (y_data g) (wire g).
Definition set_ser (s : option Serial) (g : Globals) : Globals :=
  mkGlobals (df g) (angles g) (signals g) (pattern_power g) s (simulation g)
            (idx g) (x_data g) (y_data g) (wire g).
Definition set_simulation (b : bool) (g : Globals) : Globals :=
  mkGlobals (df g) (angles g) (signals g) (pattern_power g) (ser g) b
            (idx g) (x_data g) (y_data g) (wire g).
Definition set_idx (i : nat) (g : Globals) : Globals :=
  mkGlobals (df g) (angles g) (signals g) (pattern_power g) (ser g) (simulation g)
            i (x_data g) (y_data g) (wire g).
Definition set_x_data (l : list float) (g : Globals) : Globals :=
  mkGlobals (df g) (angles g) (signals g) (pattern_power g) (ser g) (simulation g)
            (idx g) l (y_data g) (wire g).
Definition set_y_data (l : list float) (g : Globals) : Globals :=
  mkGlobals (df g) (angles g) (signals g) (pattern_power g) (ser g) (simulation g)
            (idx g) (x_data g) l (wire g).
Definition set_wire (w : list (string * string)) (g : Globals) : Globals :=
  mkGlobals (df g) (angles g) (signals g) (pattern_power g) (ser g) (simulation g)
            (idx g) (x_data g) (y_data g) w.

(** ** Computations over the globals *)

Definition M (A : Type) : Type := Globals -> Globals * result A.

Definition ret {A} (a : A) : M A := fun g => (g, Ok a).
Definition raise {A} (e : exn) : M A := fun g => (g, Raise e).
Definition bind {A B} (m : M A) (k : A -> M B) : M B :=
  fun g => match m g with
           | (g', Ok a) => k a g'
           | (g', Raise e) => (g', Raise e)
           end.
Definition gets {A} (f : Globals -> A) : M A := fun g => (g, Ok (f g)).
Definition modify (f : Globals -> Globals) : M unit := fun g => (f g, Ok tt).

(** [try: body except <classes caught>: handler]. *)
Definition try_except {A} (body : M A) (caught : exn -> bool) (handler : exn -> M A) : M A :=
  fun g => match body g with
           | (g', Ok a) => (g', Ok a)
           | (g', Raise e) => if caught e then handler e g' else (g', Raise e)
           end.

Notation "x <- m ;; k" := (bind m (fun x => k))
  (at level 61, m at next level, right associativity).
Notation "m ;;; k" := (bind m (fun _ => k))
  (at level 61, right associativity).

(** [l[i]] for a non-negative [i]. *)
Definition index {A} (l : list A) (i : nat) : M A :=
  match nth_error l i with
  | Some a => ret a
  | None => raise (mkExn IndexError "list index out of range")
  end.

(** ** What triggered a callback *)

(** [callback_context.triggered]: [None] when nothing triggered the call (the
    initial call; Dash then reports the single entry [{"prop_id": "."}] and
    the list is falsy), [Some p] for the [prop_id] of [triggered[0]]. *)
Definition Triggered : Type := option string.

Definition was_triggered (t : Triggered) : bool :=
  match t with Some _ => true | None => false end.

Definition prop_id (t : Triggered) : string :=
  match t with Some p => p | None => "." end.

(** [s.split(".")[0]] *)
Fixpoint before_dot (s : string) : string :=
  match s with
  | EmptyString => EmptyString
  | String a s' => if Ascii.eqb a "."%char then EmptyString
                   else String a (before_dot s')
  end.

(** ** Serial helpers *)

Definition SIM_OPTION : string := "SIMULATE (no‑COM)".

(** [if ser and ser.is_open: ser.close()]: the object stays bound to [ser],
    closed. *)
Definition close_if_open : M unit :=
  modify (fun g => match ser g with
                   | Some s => if is_open s
                               then set_ser (Some (mkSerial (port_name s) false)) g
                               else g
                   | None => g
                   end).

Section Serial.

(** [serial.Serial(port, 115200, timeout=0.2)]: the exception it raises for a
    port, if any; otherwise the port opens. *)
Variable serial_Serial : string -> option exn.

(** [open_port]; the [atexit] hook it registers plays no part before exit. *)
Definition open_port (port : string) : M unit :=
  if port =? SIM_OPTION then
    close_if_open ;;;
    modify (set_ser None) ;;;
    modify (set_simulation true)
  else
    modify (set_simulation false) ;;;
    close_if_open ;;;
    match serial_Serial port with
    | Some e => raise e
    | None => modify (set_ser (Some (mkSerial port true)))
    end.

Definition connect_serial (port : string) : M string :=
  try_except
    (open_port port ;;;
     sim <- gets simulation ;;
     ret (if sim then "Simulation" else "Connected " ++ port))
    is_SerialException
    (fun e => ret ("Error " ++ exn_msg e)).

End Serial.

(** [ser.write(cmd); ser.flush()] appends to the wire; the write itself is
    taken to succeed. *)
Definition safe_write (cmd : string) : M unit :=
  modify (fun g =>
    match ser g with
    | Some s => if negb (simulation g) && is_open s
                then set_wire (wire g ++ [(port_name s, cmd)])%list g
                else g
    | None => g
    end).

Definition motor_control (t : Triggered) : M string :=
  let trig := before_dot (prop_id t) in
  (if trig =? "cw-btn" then safe_write cmd_CW
   else if trig =? "ccw-btn" then safe_write cmd_CCW
   else if trig =? "mot-stop-btn" then safe_write cmd_STOP
   else ret tt) ;;;
  ret "".

(** ** The sweep controller *)

(** The data of the [scan-state] store, [{"active": bool}]. *)
Record ScanState : Type := mkScan { active : bool }.

(** What [pattern] returns: the trace drawn in [pattern-graph], and the last
    angle shown by [lcd-angle] ([None] shows 0.00). *)
Record PatternOut : Type := mkPatternOut {
  figure_x : list float;
  figure_y : list float;
  lcd_angle : option float
}.

Definition toggle_scan (t : Triggered) (state : ScanState) : ScanState :=
  if negb (was_triggered t) then state
  else mkScan (prefix "start-btn" (prop_id t)).

(** [angles[idx]] and [signals[idx]], read at the time of the call. *)
Definition angle_at_cursor : M float :=
  l <- gets angles ;; i <- gets idx ;; index l i.
Definition signal_at_cursor : M float :=
  l <- gets signals ;; i <- gets idx ;; index l i.

(** [state.get("active") and idx < len(angles) and angles[idx] <= 360] *)
Definition may_step (state : ScanState) : M bool :=
  if active state then
    i <- gets idx ;; n <- gets (fun g => List.length (angles g)) ;;
    if (i <? n)%nat then a <- angle_at_cursor ;; ret (a <=? 360)%float
    else ret false
  else ret false.

(** [idx >= len(angles) or (angles[idx] > 360 if idx < len(angles) else False)] *)
Definition exhausted : M bool :=
  i <- gets idx ;; n <- gets (fun g => List.length (angles g)) ;;
  if (n <=? i)%nat then ret true
  else if (i <? n)%nat then a <- angle_at_cursor ;; ret (360 <? a)%float
  else ret false.

(** The callback [pattern]. [state] is the callback's argument, the data of
    [scan-state] as the request carries it; the result holds that dict as the
    body leaves it, beside the two declared outputs. *)
Definition pattern (t : Triggered) (state : ScanState) : M (ScanState * PatternOut) :=
  state <- (if prop_id t =? "reset-btn.n_clicks" then
              modify (set_idx 0) ;;;
              modify (set_x_data []) ;;;
              modify (set_y_data []) ;;;
              ret (mkScan false)
            else ret state) ;;
  go <- may_step state ;;
  state <- (if go then
              safe_write cmd_STEP ;;;
              a <- angle_at_cursor ;;
              modify (fun g => set_x_data (x_data g ++ [a])%list g) ;;;
              s <- signal_at_cursor ;;
              modify (fun g => set_y_data (y_data g ++ [s])%list g) ;;;
              s <- signal_at_cursor ;;
              modify (set_pattern_power s) ;;;
              modify (fun g => set_idx (idx g + 1) g) ;;;
              ret state
            else
              stop <- exhausted ;;
              if stop then ret (mkScan false) else ret state) ;;
  xs <- gets x_data ;;
  ys <- gets y_data ;;
  ret (state, mkPatternOut xs ys (last (map Some xs) None)).

(** ** CSV upload *)

(** [s.split(c)] *)
Fixpoint split_on (c : ascii) (s : string) : list string :=
  match s with
  | EmptyString => [EmptyString]
  | String a s' =>
      if Ascii.eqb a c then EmptyString :: split_on c s'
      else match split_on c s' with
           | p :: ps => String a p :: ps
           | [] => [String a EmptyString]
           end
  end.

(** [content_type, content_string = contents.split(",")] *)
Definition unpack_contents (contents : string) : M (string * string) :=
  match split_on ","%char contents with
  | [content_type; content_string] => ret (content_type, content_string)
  | [] | [_] => raise (mkExn ValueError "not enough values to unpack (expected 2, got 1)")
  | _ => raise (mkExn ValueError "too many values to unpack (expected 2)")
  end.

Section Upload.

(** [pd.read_csv(io.StringIO(base64.b64decode(content_string).decode("utf-8")),
    names=["Angle", "Signal"], skiprows=1)]: the rows read, or the exception
    raised by the decoding or the parser. *)
Variable read_table : string -> result DataFrame.

(** The statements of the [try] block that decode and parse the upload. *)
Definition parse_upload (contents : string) : M DataFrame :=
  parts <- unpack_contents contents ;;
  match read_table (snd parts) with
  | Ok d => ret d
  | Raise e => raise e
  end.

Definition update_csv (contents : option string) (filename : string) : M string :=
  match contents with
  | None => ret "No file uploaded."
  | Some contents =>
      try_except
        (uploaded_df <- parse_upload contents ;;
         modify (set_table uploaded_df) ;;;
         modify (fun g => set_columns (column_Angle (df g)) (column_Signal (df g)) g) ;;;
         l <- gets signals ;;
         s0 <- index l 0 ;;
         modify (set_pattern_power s0) ;;;
         ret ("File '" ++ filename ++ "' uploaded successfully."))
        (fun _ => true)
        (fun e => ret ("Error processing file: " ++ exn_msg e))
  end.

End Upload.

(** ** The signal generator's frequency *)

(** Python's two-argument [min] and [max]: the second argument replaces the
    first only when it compares strictly below (above) it. *)
Definition py_min (a b : float) : float := if (b <? a)%float then b else a.
Definition py_max (a b : float) : float := if (a <? b)%float then b else a.

(** The callback [update_frequency]: the new data of [frequency-state]; the
    readout [vsg-frequency] shows the same number. *)
Definition update_frequency (t : Triggered) (frequency : float) : float :=
  let triggered_id := before_dot (prop_id t) in
  let frequency :=
    if triggered_id =? "freq-up-btn" then (frequency + 0.01)%float
    else if triggered_id =? "freq-down-btn" then (frequency - 0.01)%float
    else frequency in
  py_max 5.8 (py_min 6.0 frequency).

Definition recenter_axis (frequency : float) : float := (frequency * 1e9)%float.

(** ** The application: globals, stores and the dispatch of callbacks *)

(** The server's globals together with the component properties the callbacks
    read ([State], [Input]) and write ([Output]). *)
Record App : Type := mkApp {
  globals : Globals;
  scan_state : ScanState;          (* dcc.Store "scan-state" *)
  frequency_state : float;         (* dcc.Store "frequency-state", GHz *)
  spectrum_axis : float;           (* dcc.Store "spectrum-axis", Hz *)
  serial_status : string;          (* "serial-status".children *)
  upload_status : string;          (* "upload-status".children *)
  pattern_graph : PatternOut       (* "pattern-graph".figure and "lcd-angle".children *)
}.

Definition with_globals (g : Globals) (a : App) : App :=
  mkApp g (scan_state a) (frequency_state a) (spectrum_axis a)
        (serial_status a) (upload_status a) (pattern_graph a).

(** The module's top level for a CSV whose first data row is [row]: an empty
    table makes [signals[0]] raise and the program does not start. *)
Definition boot_globals (row : float * float) (rest : DataFrame) : Globals :=
  let d := row :: rest in
  mkGlobals d (column_Angle d) (column_Signal d) (snd row) None true 0 [] [] [].

Definition DEFAULT_CF_HZ : float := 5.9e9%float.

Definition boot (row : float * float) (rest : DataFrame) : App :=
  mkApp (boot_globals row rest) (mkScan false) 5.9%float DEFAULT_CF_HZ
        "Simulation" "" (mkPatternOut [] [] None).

(** One firing of a callback. *)
Inductive Event : Type :=
| ConnectClick (port : string) (opening : option exn)
    (* connect-btn, with what [serial.Serial] does this time *)
| MotorClick (t : Triggered)        (* cw-btn, ccw-btn, mot-stop-btn *)
| ScanClick (t : Triggered)         (* start-btn, stop-btn, or the initial call *)
| PatternFire (t : Triggered)       (* interval-pattern, reset-btn, or the initial call *)
| UploadFile (contents : option string) (filename : string)
| FrequencyClick (t : Triggered)    (* freq-up-btn, freq-down-btn *)
| AutoClick.                        (* auto-btn: recenter_axis *)

Definition TICK : Triggered := Some "interval-pattern.n_intervals".
Definition RESET : Triggered := Some "reset-btn.n_clicks".
Definition START : Triggered := Some "start-btn.n_clicks".
Definition STOP : Triggered := Some "stop-btn.n_clicks".

Section Dispatch.

Variable read_table : string -> result DataFrame.

(** Dash calls the callback with the [State]/[Input] values of the request
    and stores what it returns in the declared [Output]s, and nowhere else;
    when the callback raises, no output is updated. The decorators declare:
    - [connect_serial]: Output serial-status.children;
    - [motor_control]: Output serial-feedback.children (a hidden div);
    - [toggle_scan]: Output scan-state.data, State scan-state.data;
    - [pattern]: Outputs pattern-graph.figure and lcd-angle.children,
      State scan-state.data (read, and not among the outputs);
    - [update_csv]: Output upload-status.children;
    - [update_frequency]: Outputs vsg-frequency.children and
      frequency-state.data, State frequency-state.data;
    - [recenter_axis]: Output spectrum-axis.data, State frequency-state.data. *)
Definition fire (a : App) (ev : Event) : App :=
  match ev with
  | ConnectClick port opening =>
      match connect_serial (fun _ => opening) port (globals a) with
      | (g, Ok status) =>
          mkApp g (scan_state a) (frequency_state a) (spectrum_axis a)
                status (upload_status a) (pattern_graph a)
      | (g, Raise _) => with_globals g a
      end
  | MotorClick t =>
      with_globals (fst (motor_control t (globals a))) a
  | ScanClick t =>
      mkApp (globals a) (toggle_scan t (scan_state a)) (frequency_state a)
            (spectrum_axis a) (serial_status a) (upload_status a) (pattern_graph a)
  | PatternFire t =>
      match pattern t (scan_state a) (globals a) with
      | (g, Ok (_, out)) =>
          mkApp g (scan_state a) (frequency_state a) (spectrum_axis a)
                (serial_status a) (upload_status a) out
      | (g, Raise _) => with_globals g a
      end
  | UploadFile contents filename =>
      match update_csv read_table contents filename (globals a) with
      | (g, Ok status) =>
          mkApp g (scan_state a) (frequency_state a) (spectrum_axis a)
                (serial_status a) status (pattern_graph a)
      | (g, Raise _) => with_globals g a
      end
  | FrequencyClick t =>
      mkApp (globals a) (scan_state a)
            (update_frequency t (frequency_state a))
            (spectrum_axis a) (serial_status a) (upload_status a) (pattern_graph a)
  | AutoClick =>
      mkApp (globals a) (scan_state a) (frequency_state a)
            (recenter_axis (frequency_state a))
            (serial_status a) (upload_status a) (pattern_graph a)
  end.

Definition run (evs : list Event) (a : App) : App := fold_left fire evs a.

End Dispatch.

(** ** Invariants of the globals *)

(** The two columns of the table have one length. *)
Definition table_wf (g : Globals) : Prop :=
  List.length (signals g) = List.length (angles g).

(** The cursor counts the points emitted so far. *)
Definition sweep_inv (g : Globals) : Prop :=
  idx g = List.length (x_data g) /\ idx g = List.length (y_data g).

(** No serial port is open. *)
Definition no_open_port (g : Globals) : Prop :=
  match ser g with Some s => is_open s = false | None => True end.

(** The frequency lies in [5.8, 6.0] GHz. *)
Definition in_band (f : float) : bool := ((5.8 <=? f) && (f <=? 6.0))%float.

(** ** Derived states, used to state the facts below *)

(** The globals after the body of the [if]: the point at the cursor emitted. *)
Definition emit (a s : float) (g : Globals) : Globals :=
  mkGlobals (df g) (angles g) (signals g) s (ser g) (simulation g)
            (idx g + 1) (x_data g ++ [a])%list (y_data g ++ [s])%list (wire g).

(** The outputs [pattern] returns from the globals it leaves. *)
Definition outputs_of (g : Globals) : PatternOut :=
  mkPatternOut (x_data g) (y_data g) (last (map Some (x_data g)) None).

(** The globals after the body of [if ... == "reset-btn.n_clicks"]. *)
Definition reset_sweep (g : Globals) : Globals :=
  set_y_data [] (set_x_data [] (set_idx 0 g)).

(** The state dict and the globals with which [pattern] reaches its second
    [if]. *)
Definition entry_state (t : Triggered) (state : ScanState) : ScanState :=
  if prop_id t =? "reset-btn.n_clicks" then mkScan false else state.
Definition entry_globals (t : Triggered) (g : Globals) : Globals :=
  if prop_id t =? "reset-btn.n_clicks" then reset_sweep g else g.

(** The table, the last signal, the cursor and the trace are the same. *)
Definition same_sweep (g g' : Globals) : Prop :=
  df g' = df g /\ angles g' = angles g /\ signals g' = signals g /\
  pattern_power g' = pattern_power g /\
  idx g' = idx g /\ x_data g' = x_data g /\ y_data g' = y_data g.

(** The globals after a parsed upload with at least one row. *)
Definition install (d : DataFrame) (s0 : float) (g : Globals) : Globals :=
  mkGlobals d (column_Angle d) (column_Signal d) s0 (ser g) (simulation g)
            (idx g) (x_data g) (y_data g) (wire g).

(** The globals after a parsed upload with no row: [signals[0]] raises once
    the three table globals have been replaced. *)
Definition install_empty (g : Globals) : Globals :=
  mkGlobals [] [] [] (pattern_power g) (ser g) (simulation g)
            (idx g) (x_data g) (y_data g) (wire g).

(** The globals at start-up for a table of two rows, and of one row. *)
Definition demo_globals : Globals := boot_globals (0, -40)%float [(10, -42)%float].


(** The firings of [connect_serial]. *)
Definition is_connect (ev : Event) : bool :=
  match ev with ConnectClick _ _ => true | _ => false end.

(** What [serial.Serial] raises for a port held by another program. *)
Definition port_busy : exn :=
  mkExn SerialException "could not open port 'COM7': PermissionError".

(** * The synthetic spectrum

    [update_spectrum] over the real numbers: every float expression of the
    callback is read as the real expression it rounds. The draws of
    [np.random.normal(0, 5.5, PTS)] are an argument, [normal i] being the
    draw for sample [i]. *)

Module Spectrum.

Local Open Scope R_scope.

Definition SPAN_HZ : R := 50e6.
Definition PTS : nat := 1001.
Definition SIG_W : R := 500e3.

(** [np.linspace(start, stop, num)] *)
Definition linspace (start stop : R) (num : nat) : list R :=
  map (fun i => start + INR i * ((stop - start) / INR (num - 1))) (seq 0 num).

(** [np.clip(x, -np.inf, hi)] *)
Definition clip_above (x hi : R) : R := Rmin x hi.

(** [np.maximum(a, b)] on arrays of one length. *)
Definition np_maximum (a b : list R) : list R :=
  map (fun p => Rmax (fst p) (snd p)) (combine a b).

(** One sample of [noise]. *)
Definition noise_floor (z : R) : R := clip_above (-90 + z) (-80).

(** One sample of [sig], at the frequency [f] (Hz). *)
Definition signal_bump (pattern_power CF_HZ f : R) : R :=
  -100 + (pattern_power + 100)
         * exp (- ((f - CF_HZ + 150e3) ^ 2) / (2 * SIG_W ^ 2)).

(** The figure: the trace and the dashed marker line. *)
Record Figure : Type := mkFigure {
  trace_x : list R;       (* GHz *)
  trace_y : list R;       (* dBm *)
  vline_x : R             (* GHz *)
}.

Definition update_spectrum (t : Triggered) (frequency center_hz pattern_power : R)
           (normal : nat -> R) : Figure :=
  let CF_HZ := frequency * 1e9 in
  let center_hz :=
    if String.eqb (prop_id t) "auto-btn.n_clicks" then CF_HZ else center_hz in
  let freqs_hz := linspace (center_hz - SPAN_HZ / 2) (center_hz + SPAN_HZ / 2) PTS in
  let freqs_ghz := map (fun f => f / 1e9) freqs_hz in
  let noise := map noise_floor (map normal (seq 0 PTS)) in
  let sig := map (signal_bump pattern_power CF_HZ) freqs_hz in
  let y := np_maximum noise sig in
  mkFigure freqs_ghz y (CF_HZ / 1e9).

(** ** The words of the specification *)

(** A Gaussian bump of amplitude [amp] and width [width] over [base],
    centred at [centre]. *)
Definition gaussian (base amp centre width f : R) : R :=
  base + amp * exp (- ((f - centre) ^ 2) / (2 * width ^ 2)).

(** The centre of the window the callback draws. *)
Definition window_centre (t : Triggered) (frequency center_hz : R) : R :=
  if String.eqb (prop_id t) "auto-btn.n_clicks" then frequency * 1e9 else center_hz.

(** The frequency of sample [i] in a window centred at [c]. *)
Definition sample_hz (c : R) (i : nat) : R :=
  (c - SPAN_HZ / 2) + INR i * (((c + SPAN_HZ / 2) - (c - SPAN_HZ / 2)) / INR (PTS - 1)).

End Spectrum.

(** ** The port list *)

(** [sorted] on a list of [str]: Python orders strings by code point, which on
    their UTF-8 bytes is the byte-wise lexicographic order. *)
Fixpoint insert_port (s : string) (l : list string) : list string :=
  match l with
  | [] => [s]
  | x :: l' => if String.leb s x then s :: l else x :: insert_port s l'
  end.

Definition py_sorted (l : list string) : list string :=
  fold_right insert_port [] l.

(** [list_ports]; [comports] holds the [device] of each port that
    [serial.tools.list_ports.comports()] reports. *)
Definition list_ports (comports : list string) : list string :=
  ([SIM_OPTION] ++ py_sorted comports)%list.

(** ** Vocabulary for the facts below *)

(** The byte strings the program can send. *)
Definition wire_commands : list string := [cmd_STEP; cmd_CW; cmd_CCW; cmd_STOP].

(** The firings of [update_csv]. *)
Definition is_upload (ev : Event) : bool :=
  match ev with UploadFile _ _ => true | _ => false end.

(** The number of occurrences of [c] in [s]. *)
Fixpoint count_char (c : ascii) (s : string) : nat :=
  match s with
  | EmptyString => 0
  | String a s' => (if Ascii.eqb a c then 1 else 0) + count_char c s'
  end.

(** The trace holds the first [idx] rows of the table. *)
Definition trace_is_prefix (g : Globals) : Prop :=
  x_data g = firstn (idx g) (angles g) /\
  y_data g = firstn (idx g) (signals g) /\
  idx g <= List.length (angles g).

(** The angles plotted are at most 360. *)
Definition plotted_in_range (g : Globals) : Prop :=
  Forall (fun a => (a <=? 360)%float = true) (x_data g).

(** A port is open on [p] and the simulation flag is off. *)
Definition connected_to (p : string) (g : Globals) : Prop :=
  ser g = Some (mkSerial p true) /\ simulation g = false.

(** ** Facts about the sweep controller *)

Lemma bind_ok {A B} (m : M A) (k : A -> M B) (g g' : Globals) (a : A) :
  m g = (g', Ok a) -> bind m k g = k a g'.
Proof. intros H. unfold bind. rewrite H. reflexivity. Qed.

Lemma bind_raise {A B} (m : M A) (k : A -> M B) (g g' : Globals) (e : exn) :
  m g = (g', Raise e) -> bind m k g = (g', Raise e).
Proof. intros H. unfold bind. rewrite H. reflexivity. Qed.

Lemma nth_error_in_range {A} (l : list A) (i : nat) (a : A) :
  nth_error l i = Some a -> (i <? List.length l)%nat = true.
Proof.
  intros H. apply Nat.ltb_lt. apply nth_error_Some. congruence.
Qed.

Lemma nth_error_out_of_range {A} (l : list A) (i : nat) :
  nth_error l i = None -> (i <? List.length l)%nat = false.
Proof.
  intros H. apply Nat.ltb_ge. now apply nth_error_None.
Qed.

Lemma table_wf_signal (g : Globals) (i : nat) (a : float) :
  table_wf g -> nth_error (angles g) i = Some a ->
  exists s, nth_error (signals g) i = Some s.
Proof.
  unfold table_wf. intros Hwf Ha.
  destruct (nth_error (signals g) i) as [s|] eqn:Hs; [now exists s|].
  apply nth_error_None in Hs.
  assert (i < List.length (angles g)) by (apply nth_error_Some; congruence).
  lia.
Qed.

(** The test of the [if]: it reads the table only inside its bounds and never
    raises. *)
Lemma may_step_eq (state : ScanState) (g : Globals) :
  may_step state g =
    (g, Ok (active state &&
            match nth_error (angles g) (idx g) with
            | Some a => (a <=? 360)%float
            | None => false
            end)).
Proof.
  unfold may_step. destruct (active state); [|reflexivity].
  unfold bind, gets, angle_at_cursor, index.
  destruct (nth_error (angles g) (idx g)) as [a|] eqn:Ha.
  - rewrite (nth_error_in_range _ _ _ Ha). unfold bind, gets.
    rewrite Ha. reflexivity.
  - rewrite (nth_error_out_of_range _ _ Ha). reflexivity.
Qed.

(** The test of the [elif], likewise. *)
Lemma exhausted_eq (g : Globals) :
  exhausted g =
    (g, Ok match nth_error (angles g) (idx g) with
           | Some a => (360 <? a)%float
           | None => true
           end).
Proof.
  unfold exhausted, bind, gets, angle_at_cursor, index.
  destruct (nth_error (angles g) (idx g)) as [a|] eqn:Ha.
  - pose proof (nth_error_in_range _ _ _ Ha) as Hlt.
    assert (Hge : (List.length (angles g) <=? idx g)%nat = false).
    { apply Nat.leb_gt. now apply Nat.ltb_lt. }
    rewrite Hge, Hlt. unfold bind, gets. rewrite Ha. reflexivity.
  - assert (Hge : (List.length (angles g) <=? idx g)%nat = true).
    { apply Nat.leb_le. now apply nth_error_None. }
    rewrite Hge. reflexivity.
Qed.

(** [safe_write] touches nothing but the wire, and never raises. *)
Lemma safe_write_eq (cmd : string) (g : Globals) :
  safe_write cmd g = (set_wire (wire (fst (safe_write cmd g))) g, Ok tt).
Proof.
  unfold safe_write, modify.
  destruct (ser g) as [p|]; [destruct (negb (simulation g) && is_open p)|];
    cbn [fst]; destruct g; reflexivity.
Qed.

(** The body of the [if], when the table holds both values at the cursor. *)
Lemma step_body_eq (state : ScanState) (g : Globals) (a s : float) :
  nth_error (angles g) (idx g) = Some a ->
  nth_error (signals g) (idx g) = Some s ->
  (safe_write cmd_STEP ;;;
   a <- angle_at_cursor ;;
   modify (fun g => set_x_data (x_data g ++ [a])%list g) ;;;
   s <- signal_at_cursor ;;
   modify (fun g => set_y_data (y_data g ++ [s])%list g) ;;;
   s <- signal_at_cursor ;;
   modify (set_pattern_power s) ;;;
   modify (fun g => set_idx (idx g + 1) g) ;;;
   ret state) g
  = (emit a s (fst (safe_write cmd_STEP g)), Ok state).
Proof.
  intros Ha Hs.
  pose proof (safe_write_eq cmd_STEP g) as Hw.
  remember (wire (fst (safe_write cmd_STEP g))) as w eqn:Heqw. clear Heqw.
  unfold bind at 1. rewrite Hw. cbn [fst].
  repeat (cbv beta iota delta
            [bind angle_at_cursor signal_at_cursor index gets modify ret];
          cbn [angles idx signals x_data y_data
               set_wire set_x_data set_y_data set_pattern_power set_idx];
          rewrite ?Ha, ?Hs).
  reflexivity.
Qed.

Lemma pattern_prologue (t : Triggered) (state : ScanState) (g : Globals)
      (k : ScanState -> M (ScanState * PatternOut)) :
  bind (if prop_id t =? "reset-btn.n_clicks" then
          modify (set_idx 0) ;;;
          modify (set_x_data []) ;;;
          modify (set_y_data []) ;;;
          ret (mkScan false)
        else ret state) k g
  = k (entry_state t state) (entry_globals t g).
Proof.
  unfold entry_state, entry_globals.
  destruct (prop_id t =? "reset-btn.n_clicks"); reflexivity.
Qed.

(** [pattern] when the [if] is taken. *)
Lemma pattern_step (t : Triggered) (state : ScanState) (g : Globals) (a s : float) :
  let g1 := entry_globals t g in
  let st1 := entry_state t state in
  active st1 = true ->
  nth_error (angles g1) (idx g1) = Some a ->
  nth_error (signals g1) (idx g1) = Some s ->
  (a <=? 360)%float = true ->
  pattern t state g =
    (emit a s (fst (safe_write cmd_STEP g1)),
     Ok (st1, outputs_of (emit a s (fst (safe_write cmd_STEP g1))))).
Proof.
  intros g1 st1 Hact Ha Hs Hle.
  unfold pattern. rewrite pattern_prologue. fold g1 st1.
  rewrite (bind_ok _ _ _ _ _ (may_step_eq st1 g1)).
  rewrite Hact, Ha, Hle. cbn [andb].
  rewrite (bind_ok _ _ _ _ _ (step_body_eq st1 g1 a s Ha Hs)).
  reflexivity.
Qed.

(** [pattern] when the [if] is not taken: the globals stay as the reset check
    left them, and the [elif] decides the flag. *)
Lemma pattern_idle (t : Triggered) (state : ScanState) (g : Globals) :
  let g1 := entry_globals t g in
  let st1 := entry_state t state in
  active st1 && match nth_error (angles g1) (idx g1) with
                | Some a => (a <=? 360)%float
                | None => false
                end = false ->
  pattern t state g =
    (g1, Ok (if match nth_error (angles g1) (idx g1) with
                | Some a => (360 <? a)%float
                | None => true
                end
             then mkScan false else st1,
             outputs_of g1)).
Proof.
  intros g1 st1 Hno.
  unfold pattern. rewrite pattern_prologue. fold g1 st1.
  rewrite (bind_ok _ _ _ _ _ (may_step_eq st1 g1)).
  rewrite Hno.
  unfold bind at 1.
  rewrite (bind_ok _ _ _ _ _ (exhausted_eq g1)).
  destruct (nth_error (angles g1) (idx g1)) as [a|];
    [destruct (360 <? a)%float|]; reflexivity.
Qed.

(** [pattern] when the [if] is taken but [signals] is shorter than [angles]:
    the angle is already appended when [signals[idx]] raises. *)
Lemma pattern_torn (t : Triggered) (state : ScanState) (g : Globals) (a : float) :
  let g1 := entry_globals t g in
  let st1 := entry_state t state in
  active st1 = true ->
  nth_error (angles g1) (idx g1) = Some a ->
  nth_error (signals g1) (idx g1) = None ->
  (a <=? 360)%float = true ->
  exists g', pattern t state g =
    (g', Raise (mkExn IndexError "list index out of range")) /\
    x_data g' = (x_data g1 ++ [a])%list /\ y_data g' = y_data g1 /\ idx g' = idx g1.
Proof.
  intros g1 st1 Hact Ha Hs Hle.
  unfold pattern. rewrite pattern_prologue. fold g1 st1.
  rewrite (bind_ok _ _ _ _ _ (may_step_eq st1 g1)).
  rewrite Hact, Ha, Hle. cbn [andb].
  pose proof (safe_write_eq cmd_STEP g1) as Hw.
  remember (wire (fst (safe_write cmd_STEP g1))) as w eqn:Heqw. clear Heqw.
  unfold bind at 1. unfold bind at 1. rewrite Hw.
  repeat (cbv beta iota delta
            [bind angle_at_cursor signal_at_cursor index gets modify ret raise];
          cbn [angles idx signals x_data y_data
               set_wire set_x_data set_y_data set_pattern_power set_idx];
          rewrite ?Ha, ?Hs).
  eexists. split; [reflexivity|]. cbn. auto.
Qed.

(** ** What each callback leaves alone *)

Lemma close_if_open_eq (g : Globals) :
  close_if_open g =
    (set_ser match ser g with
             | Some s => Some (mkSerial (port_name s) false)
             | None => None
             end g, Ok tt).
Proof.
  unfold close_if_open, modify.
  destruct g as [d a s p [[pn []]|] sim i x y w]; reflexivity.
Qed.

Lemma open_port_sweep (oracle : string -> option exn) (port : string) (g : Globals) :
  same_sweep g (fst (open_port oracle port g)).
Proof.
  unfold open_port.
  destruct (port =? SIM_OPTION).
  - unfold bind. rewrite close_if_open_eq. cbn. repeat split.
  - unfold bind at 1. unfold modify at 1. unfold bind at 1.
    rewrite close_if_open_eq.
    destruct (oracle port); cbn; repeat split.
Qed.

Lemma connect_serial_sweep (oracle : string -> option exn) (port : string) (g : Globals) :
  same_sweep g (fst (connect_serial oracle port g)).
Proof.
  pose proof (open_port_sweep oracle port g) as H.
  unfold connect_serial, try_except, bind.
  destruct (open_port oracle port g) as [g' [[]|e]]; cbn [fst] in *.
  - exact H.
  - destruct (is_SerialException e); exact H.
Qed.

Lemma safe_write_sweep (cmd : string) (g : Globals) :
  same_sweep g (fst (safe_write cmd g)).
Proof.
  rewrite safe_write_eq. cbn. repeat split.
Qed.

Lemma motor_control_sweep (t : Triggered) (g : Globals) :
  same_sweep g (fst (motor_control t g)).
Proof.
  unfold motor_control, bind.
  destruct (before_dot (prop_id t) =? "cw-btn");
    [|destruct (before_dot (prop_id t) =? "ccw-btn");
      [|destruct (before_dot (prop_id t) =? "mot-stop-btn")]];
    try (rewrite safe_write_eq; cbn; repeat split).
  cbn. repeat split.
Qed.

(** ** What the upload handler does *)

Section UploadFacts.

Variable read_table : string -> result DataFrame.

(** Decoding and parsing leave the globals alone. *)
Lemma parse_upload_globals (contents : string) (g : Globals) :
  fst (parse_upload read_table contents g) = g.
Proof.
  unfold parse_upload, unpack_contents, bind.
  destruct (split_on ","%char contents) as [|c1 [|c2 [|c3 l]]]; try reflexivity.
  cbn. destruct (read_table c2); reflexivity.
Qed.

Lemma update_csv_none (filename : string) (g : Globals) :
  update_csv read_table None filename g = (g, Ok "No file uploaded.").
Proof. reflexivity. Qed.

Lemma update_csv_parse_error (contents filename : string) (g : Globals) (e : exn) :
  parse_upload read_table contents g = (g, Raise e) ->
  update_csv read_table (Some contents) filename g =
    (g, Ok ("Error processing file: " ++ exn_msg e)).
Proof.
  intros H. unfold update_csv, try_except.
  rewrite (bind_raise _ _ _ _ _ H). reflexivity.
Qed.

Lemma update_csv_rows (contents filename : string) (g : Globals)
      (row : float * float) (rest : DataFrame) :
  parse_upload read_table contents g = (g, Ok (row :: rest)) ->
  update_csv read_table (Some contents) filename g =
    (install (row :: rest) (snd row) g,
     Ok ("File '" ++ filename ++ "' uploaded successfully.")).
Proof.
  intros H. unfold update_csv, try_except.
  rewrite (bind_ok _ _ _ _ _ H). reflexivity.
Qed.

Lemma update_csv_no_rows (contents filename : string) (g : Globals) :
  parse_upload read_table contents g = (g, Ok []) ->
  update_csv read_table (Some contents) filename g =
    (install_empty g, Ok "Error processing file: list index out of range").
Proof.
  intros H. unfold update_csv, try_except.
  rewrite (bind_ok _ _ _ _ _ H). reflexivity.
Qed.

(** The handler never raises, and the four cases above are all there are. *)
Lemma update_csv_cases (contents : option string) (filename : string) (g : Globals) :
  exists g' status,
    update_csv read_table contents filename g = (g', Ok status) /\
    (g' = g \/ g' = install_empty g \/
     exists row rest, g' = install (row :: rest) (snd row) g).
Proof.
  destruct contents as [contents|].
  - pose proof (parse_upload_globals contents g) as Hg.
    destruct (parse_upload read_table contents g) as [g0 [d|e]] eqn:Hp;
      cbn [fst] in Hg; subst g0.
    + destruct d as [|row rest].
      * do 2 eexists. split; [apply update_csv_no_rows; exact Hp|]. auto.
      * do 2 eexists. split; [apply update_csv_rows; exact Hp|].
        right; right. eauto.
    + do 2 eexists. split; [apply update_csv_parse_error; exact Hp|]. auto.
  - do 2 eexists. split; [apply update_csv_none|]. auto.
Qed.

End UploadFacts.

(** ** Invariants along every run *)

Lemma same_sweep_table_wf (g g' : Globals) :
  same_sweep g g' -> table_wf g -> table_wf g'.
Proof.
  unfold same_sweep, table_wf. intros (_ & Ha & Hs & _) H. now rewrite Ha, Hs.
Qed.

Lemma same_sweep_inv (g g' : Globals) :
  same_sweep g g' -> sweep_inv g -> sweep_inv g'.
Proof.
  unfold same_sweep, sweep_inv.
  intros (_ & _ & _ & _ & Hi & Hx & Hy) H. now rewrite Hi, Hx, Hy.
Qed.

Lemma entry_globals_table (t : Triggered) (g : Globals) :
  df (entry_globals t g) = df g /\
  angles (entry_globals t g) = angles g /\
  signals (entry_globals t g) = signals g /\
  pattern_power (entry_globals t g) = pattern_power g.
Proof.
  unfold entry_globals. destruct (prop_id t =? "reset-btn.n_clicks"); cbn; auto.
Qed.

Lemma entry_globals_inv (t : Triggered) (g : Globals) :
  sweep_inv g -> sweep_inv (entry_globals t g).
Proof.
  unfold entry_globals. destruct (prop_id t =? "reset-btn.n_clicks"); [|auto].
  intros _. split; reflexivity.
Qed.

(** On a well-formed table [pattern] returns, in one of two ways. *)
Lemma pattern_total (t : Triggered) (state : ScanState) (g : Globals) :
  table_wf g ->
  let g1 := entry_globals t g in
  let st1 := entry_state t state in
  (exists a s,
      active st1 = true /\
      nth_error (angles g1) (idx g1) = Some a /\
      nth_error (signals g1) (idx g1) = Some s /\
      (a <=? 360)%float = true /\
      pattern t state g =
        (emit a s (fst (safe_write cmd_STEP g1)),
         Ok (st1, outputs_of (emit a s (fst (safe_write cmd_STEP g1))))))
  \/
  (exists st', pattern t state g = (g1, Ok (st', outputs_of g1)) /\
               (active st' = true -> st' = st1)).
Proof.
  intros Hwf g1 st1.
  assert (Hwf1 : table_wf g1).
  { unfold table_wf, g1.
    destruct (entry_globals_table t g) as (_ & Ha & Hs & _). now rewrite Ha, Hs. }
  destruct (active st1 && match nth_error (angles g1) (idx g1) with
                          | Some a => (a <=? 360)%float
                          | None => false
                          end) eqn:Hgo.
  - left. apply andb_true_iff in Hgo. destruct Hgo as [Hact Hle].
    destruct (nth_error (angles g1) (idx g1)) as [a|] eqn:Ha; [|discriminate].
    destruct (table_wf_signal g1 _ _ Hwf1 Ha) as [s Hs].
    exists a, s. repeat split; auto.
    apply pattern_step; auto.
  - right. eexists. split; [apply pattern_idle; exact Hgo|].
    fold g1 st1.
    destruct (match nth_error (angles g1) (idx g1) with
              | Some a => (360 <? a)%float
              | None => true
              end); cbn; [intros H; discriminate H|auto].
Qed.

Lemma emit_inv (a s : float) (g : Globals) :
  sweep_inv g -> sweep_inv (emit a s g).
Proof.
  unfold sweep_inv. intros [Hx Hy]. cbn.
  rewrite !length_app. cbn. lia.
Qed.

Lemma pattern_keeps_table (t : Triggered) (state : ScanState) (g : Globals) :
  table_wf g -> table_wf (fst (pattern t state g)).
Proof.
  intros Hwf.
  destruct (entry_globals_table t g) as (_ & Ha & Hs & _).
  destruct (pattern_total t state g Hwf) as [(a & s & _ & _ & _ & _ & E)|(st' & E & _)];
    rewrite E; cbn [fst]; unfold table_wf in *.
  - destruct (safe_write_sweep cmd_STEP (entry_globals t g)) as (_ & Ha' & Hs' & _).
    unfold emit. cbn [angles signals]. rewrite Ha', Hs', Ha, Hs. exact Hwf.
  - rewrite Ha, Hs. exact Hwf.
Qed.

Lemma pattern_keeps_inv (t : Triggered) (state : ScanState) (g : Globals) :
  table_wf g -> sweep_inv g -> sweep_inv (fst (pattern t state g)).
Proof.
  intros Hwf Hinv.
  pose proof (entry_globals_inv t g Hinv) as H1.
  destruct (pattern_total t state g Hwf) as [(a & s & _ & _ & _ & _ & E)|(st' & E & _)];
    rewrite E; cbn [fst]; [|exact H1].
  apply emit_inv.
  exact (same_sweep_inv _ _ (safe_write_sweep cmd_STEP _) H1).
Qed.

Section RunFacts.

Variable read_table : string -> result DataFrame.

Lemma update_csv_keeps_table (contents : option string) (filename : string) (g : Globals) :
  table_wf g -> table_wf (fst (update_csv read_table contents filename g)).
Proof.
  intros Hwf.
  destruct (update_csv_cases read_table contents filename g)
    as (g' & status & E & [->|[->|(row & rest & ->)]]); rewrite E; cbn [fst]; auto.
  - reflexivity.
  - unfold table_wf, install, column_Angle, column_Signal. cbn.
    now rewrite !length_map.
Qed.

Lemma update_csv_keeps_inv (contents : option string) (filename : string) (g : Globals) :
  sweep_inv g -> sweep_inv (fst (update_csv read_table contents filename g)).
Proof.
  intros Hinv.
  destruct (update_csv_cases read_table contents filename g)
    as (g' & status & E & [->|[->|(row & rest & ->)]]); rewrite E; cbn [fst]; auto.
Qed.

Lemma fire_globals (a : App) (ev : Event) :
  globals (fire read_table a ev) =
    match ev with
    | ConnectClick port opening => fst (connect_serial (fun _ => opening) port (globals a))
    | MotorClick t => fst (motor_control t (globals a))
    | PatternFire t => fst (pattern t (scan_state a) (globals a))
    | UploadFile contents filename =>
        fst (update_csv read_table contents filename (globals a))
    | ScanClick _ | FrequencyClick _ | AutoClick => globals a
    end.
Proof.
  destruct ev; cbn; try reflexivity.
  - destruct (connect_serial _ port (globals a)) as [g [s|e]]; reflexivity.
  - destruct (pattern t (scan_state a) (globals a)) as [g [[st out]|e]]; reflexivity.
  - destruct (update_csv read_table contents filename (globals a)) as [g [s|e]];
      reflexivity.
Qed.

Lemma fire_keeps_table (a : App) (ev : Event) :
  table_wf (globals a) -> table_wf (globals (fire read_table a ev)).
Proof.
  intros H. rewrite fire_globals. destruct ev; auto.
  - exact (same_sweep_table_wf _ _ (connect_serial_sweep _ _ _) H).
  - exact (same_sweep_table_wf _ _ (motor_control_sweep _ _) H).
  - now apply pattern_keeps_table.
  - now apply update_csv_keeps_table.
Qed.

Lemma fire_keeps_inv (a : App) (ev : Event) :
  table_wf (globals a) -> sweep_inv (globals a) ->
  sweep_inv (globals (fire read_table a ev)).
Proof.
  intros Hwf H. rewrite fire_globals. destruct ev; auto.
  - exact (same_sweep_inv _ _ (connect_serial_sweep _ _ _) H).
  - exact (same_sweep_inv _ _ (motor_control_sweep _ _) H).
  - now apply pattern_keeps_inv.
  - now apply update_csv_keeps_inv.
Qed.

Lemma run_keeps (evs : list Event) (a : App) :
  table_wf (globals a) -> sweep_inv (globals a) ->
  table_wf (globals (run read_table evs a)) /\
  sweep_inv (globals (run read_table evs a)).
Proof.
  revert a. induction evs as [|ev evs IH]; intros a Hwf Hinv; cbn; [auto|].
  apply IH; [now apply fire_keeps_table | now apply fire_keeps_inv].
Qed.

Lemma boot_table_wf (row : float * float) (rest : DataFrame) :
  table_wf (boot_globals row rest).
Proof.
  unfold table_wf, boot_globals, column_Angle, column_Signal. cbn.
  now rewrite !length_map.
Qed.

Lemma boot_sweep_inv (row : float * float) (rest : DataFrame) :
  sweep_inv (boot_globals row rest).
Proof. split; reflexivity. Qed.

End RunFacts.

(** ** The sweep tick *)

(** C1. On a timer tick (any trigger but the reset button), when the running
    flag the callback receives is set, the cursor lies inside the angle table
    and the angle [a] at the cursor is at most 360, [pattern] returns after
    appending [a] to [x_data] and the signal at the cursor to [y_data],
    advancing the cursor by exactly one and setting [pattern_power] to that
    signal. The table is well formed, as it is in every reachable state. *)
Theorem pattern_tick_emits (t : Triggered) (state : ScanState) (g : Globals) (a : float) :
  (prop_id t =? "reset-btn.n_clicks") = false ->
  table_wf g ->
  active state = true ->
  nth_error (angles g) (idx g) = Some a ->
  (a <=? 360)%float = true ->
  exists s g' out,
    nth_error (signals g) (idx g) = Some s /\
    pattern t state g = (g', Ok (state, out)) /\
    x_data g' = (x_data g ++ [a])%list /\
    y_data g' = (y_data g ++ [s])%list /\
    idx g' = idx g + 1 /\
    pattern_power g' = s /\
    angles g' = angles g /\ signals g' = signals g.
Proof.
  intros Ht Hwf Hact Ha Hle.
  destruct (table_wf_signal g _ _ Hwf Ha) as [s Hs].
  pose proof (pattern_step t state g a s) as E.
  unfold entry_globals, entry_state in E. rewrite Ht in E.
  specialize (E Hact Ha Hs Hle).
  destruct (safe_write_sweep cmd_STEP g) as (_ & Ha' & Hs' & _ & Hi & Hx & Hy).
  exists s. do 2 eexists. split; [exact Hs|]. split; [exact E|].
  unfold emit. cbn [x_data y_data idx pattern_power angles signals].
  rewrite Hx, Hy, Hi, Ha', Hs'. repeat split.
Qed.

Lemma pattern_tick_emits_witness :
  exists s g' out,
    nth_error (signals demo_globals) 0 = Some s /\
    pattern TICK (mkScan true) demo_globals
      = (g', Ok (mkScan true, out)) /\
    x_data g' = [0%float]%list /\ y_data g' = [s]%list /\ idx g' = 1 /\
    pattern_power g' = s /\
    angles g' = [0; 10]%float%list /\ signals g' = [-40; -42]%float%list.
Proof.
  apply (pattern_tick_emits TICK (mkScan true)
           demo_globals 0%float); reflexivity.
Defined.



(** C10. From the initial state, whatever callbacks fire and in whatever
    order (ticks, resets, uploads and all the others), the cursor equals the
    length of [x_data] and the length of [y_data]. *)
Theorem cursor_counts_trace (read_table : string -> result DataFrame)
        (row : float * float) (rest : DataFrame) (evs : list Event) :
  let g := globals (run read_table evs (boot row rest)) in
  idx g = List.length (x_data g) /\ idx g = List.length (y_data g).
Proof.
  exact (proj2 (run_keeps read_table evs (boot row rest)
                          (boot_table_wf row rest) (boot_sweep_inv row rest))).
Qed.

(** ** Upload failures *)



(** An upload that parses to a table without rows is reported as an error as
    well, but only after the table globals have been emptied. *)
Remark upload_without_rows_empties_table
       (read_table : string -> result DataFrame)
       (contents filename : string) (g : Globals) :
  snd (parse_upload read_table contents g) = Ok [] ->
  update_csv read_table (Some contents) filename g =
    (install_empty g, Ok "Error processing file: list index out of range").
Proof.
  intros H. apply update_csv_no_rows.
  pose proof (parse_upload_globals read_table contents g) as Hg.
  destruct (parse_upload read_table contents g) as [g0 r]. cbn in Hg, H. subst. reflexivity.
Qed.

(** ** The running flag and the [scan-state] store *)

(** [pattern] declares two outputs, the figure and the angle readout: its
    firing leaves the store as it was. *)
Lemma pattern_leaves_store (read_table : string -> result DataFrame)
      (a : App) (t : Triggered) :
  scan_state (fire read_table a (PatternFire t)) = scan_state a.
Proof.
  cbn. destruct (pattern t (scan_state a) (globals a)) as [g [[st out]|e]];
    reflexivity.
Qed.

Lemma patterns_leave_store (read_table : string -> result DataFrame)
      (ts : list Triggered) (a : App) :
  scan_state (run read_table (map PatternFire ts) a) = scan_state a.
Proof.
  revert a. induction ts as [|t ts IH]; intros a; [reflexivity|].
  cbn [map run fold_left]. unfold run in IH. rewrite IH.
  apply pattern_leaves_store.
Qed.

(** C2, as the code has it. Once the start button has set the flag of the
    store, no number of ticks or resets clears it: whether or not the table is
    exhausted, the store still says running. The flag [pattern] clears at the
    end of the table is the one in its own argument. *)
Theorem auto_stop_not_stored (read_table : string -> result DataFrame)
        (a : App) (ts : list Triggered) :
  active (scan_state (run read_table (ScanClick START :: map PatternFire ts) a)) = true.
Proof.
  change (run read_table (ScanClick START :: map PatternFire ts) a)
    with (run read_table (map PatternFire ts) (fire read_table a (ScanClick START))).
  rewrite patterns_leave_store. reflexivity.
Qed.

(** On the table of one row: after start and three ticks the cursor is at the
    end of the table, the call itself returned the flag cleared, and the store
    is still running. *)
Example exhausted_sweep_still_running :
  let a := run (fun _ => Ok []) [ScanClick START; PatternFire TICK;
                                 PatternFire TICK; PatternFire TICK]
               (boot (0, -40)%float []) in
  idx (globals a) = 1 /\
  List.length (angles (globals a)) = 1 /\
  (exists g out, pattern TICK (scan_state a) (globals a) = (g, Ok (mkScan false, out))) /\
  active (scan_state a) = true.
Proof.
  cbv zeta. repeat split. do 2 eexists. vm_compute. reflexivity.
Qed.

(** C5, as the code has it. A firing by the reset button zeroes the cursor and
    empties both traces, whatever the state before; the flag of the store is
    left as it was. *)
Theorem reset_leaves_store (read_table : string -> result DataFrame) (a : App) :
  let a' := fire read_table a (PatternFire RESET) in
  idx (globals a') = 0 /\
  x_data (globals a') = [] /\
  y_data (globals a') = [] /\
  scan_state a' = scan_state a.
Proof.
  cbv zeta. rewrite pattern_leaves_store, fire_globals.
  assert (E : pattern RESET (scan_state a) (globals a) =
              (reset_sweep (globals a),
               Ok (mkScan false, outputs_of (reset_sweep (globals a))))).
  { rewrite (pattern_idle RESET (scan_state a) (globals a)); [|reflexivity].
    cbn [entry_globals entry_state prop_id RESET String.eqb Ascii.eqb Bool.eqb].
    destruct (nth_error _ _) as [x|]; [destruct (360 <? x)%float|]; reflexivity. }
  rewrite E. repeat split.
Qed.

(** Inside the call the reset does clear the flag of its argument, so that
    call takes no step. *)
Lemma reset_call (state : ScanState) (g : Globals) :
  pattern RESET state g =
    (reset_sweep g, Ok (mkScan false, mkPatternOut [] [] None)).
Proof.
  rewrite (pattern_idle RESET state g); [|reflexivity].
  cbn [entry_globals entry_state prop_id RESET String.eqb Ascii.eqb Bool.eqb].
  destruct (nth_error _ _) as [x|]; [destruct (360 <? x)%float|]; reflexivity.
Qed.

(** A running sweep that is reset starts again at the next tick. *)
Example reset_does_not_stop_sweep :
  let a := run (fun _ => Ok []) [ScanClick START; PatternFire TICK; PatternFire RESET]
               (boot (0, -40)%float [(10, -42)%float]) in
  idx (globals a) = 0 /\ x_data (globals a) = [] /\
  active (scan_state a) = true /\
  idx (globals (fire (fun _ => Ok []) a (PatternFire TICK))) = 1.
Proof.
  cbv zeta. repeat split.
Qed.

(** ** Connecting to a serial port *)

Lemma safe_write_closed (cmd : string) (g : Globals) :
  no_open_port g -> safe_write cmd g = (g, Ok tt).
Proof.
  unfold no_open_port, safe_write, modify.
  destruct (ser g) as [s|]; [|reflexivity].
  intros ->. now rewrite andb_false_r.
Qed.


Section Quiet.

Variable read_table : string -> result DataFrame.

(** With no port open, a callback other than [connect_serial] keeps it that
    way and writes nothing. *)
Lemma fire_quiet (a : App) (ev : Event) :
  table_wf (globals a) -> no_open_port (globals a) -> is_connect ev = false ->
  let g' := globals (fire read_table a ev) in
  ser g' = ser (globals a) /\ simulation g' = simulation (globals a) /\
  wire g' = wire (globals a).
Proof.
  intros Hwf Hno Hev. cbv zeta. rewrite fire_globals.
  destruct ev; try discriminate; auto.
  - unfold motor_control, bind.
    repeat match goal with |- context [if ?b then _ else _] => destruct b end;
      rewrite ?safe_write_closed by exact Hno; auto.
  - assert (Hno1 : no_open_port (entry_globals t (globals a))).
    { unfold entry_globals, no_open_port.
      destruct (prop_id t =? "reset-btn.n_clicks"); exact Hno. }
    assert (Hser : ser (entry_globals t (globals a)) = ser (globals a) /\
                   simulation (entry_globals t (globals a)) = simulation (globals a) /\
                   wire (entry_globals t (globals a)) = wire (globals a)).
    { unfold entry_globals.
      destruct (prop_id t =? "reset-btn.n_clicks"); cbn; auto. }
    destruct (pattern_total t (scan_state a) (globals a) Hwf)
      as [(x & s & _ & _ & _ & _ & E)|(st' & E & _)]; rewrite E; cbn [fst].
    + rewrite safe_write_closed by exact Hno1. cbn [fst]. exact Hser.
    + exact Hser.
  - destruct (update_csv_cases read_table contents filename (globals a))
      as (g' & status & E & [->|[->|(row & rest & ->)]]); rewrite E; cbn; auto.
Qed.

Lemma run_quiet (evs : list Event) (a : App) :
  table_wf (globals a) -> no_open_port (globals a) ->
  forallb (fun ev => negb (is_connect ev)) evs = true ->
  wire (globals (run read_table evs a)) = wire (globals a) /\
  simulation (globals (run read_table evs a)) = simulation (globals a).
Proof.
  revert a. induction evs as [|ev evs IH]; intros a Hwf Hno Hevs; [auto|].
  cbn in Hevs. apply andb_true_iff in Hevs. destruct Hevs as [Hev Hevs].
  apply negb_true_iff in Hev.
  destruct (fire_quiet a ev Hwf Hno Hev) as (Hs & Hsim & Hw).
  cbn [run fold_left].
  destruct (IH (fire read_table a ev)) as [IHw IHs].
  - now apply fire_keeps_table.
  - unfold no_open_port in *. now rewrite Hs.
  - exact Hevs.
  - unfold run in *. now rewrite IHw, IHs, Hw, Hsim.
Qed.

End Quiet.




(** ** The frequency band *)

Lemma float_ltb_leb (x y : float) :
  (x <? y)%float = true -> (x <=? y)%float = true.
Proof.
  rewrite ltb_spec, leb_spec. unfold SFltb, SFleb.
  destruct (SFcompare (Prim2SF x) (Prim2SF y)) as [[]|]; congruence.
Qed.

(** [max(5.8, min(6.0, x))] lies in the band for every float, NaN included. *)
Lemma clamp_in_band (x : float) : in_band (py_max 5.8 (py_min 6.0 x)) = true.
Proof.
  unfold in_band, py_max, py_min.
  destruct (x <? 6.0)%float eqn:H1.
  - destruct (5.8 <? x)%float eqn:H2.
    + now rewrite (float_ltb_leb _ _ H1), (float_ltb_leb _ _ H2).
    + reflexivity.
  - reflexivity.
Qed.

Lemma update_frequency_in_band (t : Triggered) (f : float) :
  in_band (update_frequency t f) = true.
Proof. unfold update_frequency. apply clamp_in_band. Qed.

(** C6. From the initial 5.9 GHz, whatever callbacks fire (any sequence of
    increments and decrements among them), the frequency held by the
    [frequency-state] store stays within [5.8, 6.0] GHz. *)
Theorem frequency_stays_in_band (read_table : string -> result DataFrame)
        (row : float * float) (rest : DataFrame) (evs : list Event) :
  let f := frequency_state (run read_table evs (boot row rest)) in
  (5.8 <=? f)%float = true /\ (f <=? 6.0)%float = true.
Proof.
  cbv zeta. apply andb_true_iff.
  change (in_band (frequency_state (run read_table evs (boot row rest))) = true).
  assert (H0 : in_band (frequency_state (boot row rest)) = true) by reflexivity.
  revert H0. generalize (boot row rest).
  induction evs as [|ev evs IH]; intros a Ha; [exact Ha|].
  cbn [run fold_left]. apply IH.
  destruct ev; cbn; try exact Ha.
  - destruct (connect_serial _ port (globals a)) as [g [s|e]]; exact Ha.
  - destruct (pattern t (scan_state a) (globals a)) as [g [[st out]|e]]; exact Ha.
  - destruct (update_csv read_table contents filename (globals a)) as [g [s|e]];
      exact Ha.
  - apply update_frequency_in_band.
Qed.

(** Ten increments from 5.9 GHz stop at 6.0 GHz, and thirty decrements from
    there at 5.8 GHz. *)
Example frequency_saturates :
  let up := repeat (FrequencyClick (Some "freq-up-btn.n_clicks")) 12 in
  let down := repeat (FrequencyClick (Some "freq-down-btn.n_clicks")) 30 in
  frequency_state (run (fun _ => Ok []) up (boot (0, -40)%float [])) = 6.0%float /\
  frequency_state (run (fun _ => Ok []) (up ++ down)%list (boot (0, -40)%float []))
    = 5.8%float.
Proof. cbv zeta. split; vm_compute; reflexivity. Qed.

(** * Facts about the synthetic spectrum *)

Module SpectrumFacts.

Import Spectrum.
Local Open Scope R_scope.

Lemma np_maximum_maps {A} (f g : A -> R) (l : list A) :
  np_maximum (map f l) (map g l) = map (fun x => Rmax (f x) (g x)) l.
Proof.
  unfold np_maximum. induction l as [|x l IH]; [reflexivity|].
  cbn [map combine fst snd]. f_equal. exact IH.
Qed.

Lemma trace_y_eq (t : Triggered) (frequency center_hz pattern_power : R)
      (normal : nat -> R) :
  trace_y (update_spectrum t frequency center_hz pattern_power normal) =
    map (fun i => Rmax (noise_floor (normal i))
                       (signal_bump pattern_power (frequency * 1e9)
                                    (sample_hz (window_centre t frequency center_hz) i)))
        (seq 0 PTS).
Proof.
  unfold update_spectrum. cbn [trace_y]. fold (window_centre t frequency center_hz).
  unfold linspace. rewrite !map_map.
  exact (np_maximum_maps (fun i => noise_floor (normal i)) _ (seq 0 PTS)).
Qed.

Lemma nth_map_seq {A} (f : nat -> A) (n i : nat) (d : A) :
  (i < n)%nat -> nth i (map f (seq 0 n)) d = f i.
Proof.
  intros H. rewrite (nth_indep _ d (f 0%nat)) by now rewrite length_map, length_seq.
  rewrite (map_nth f (seq 0 n) 0%nat). now rewrite seq_nth.
Qed.

(** Sample 500 of 1001 is the centre of the window. *)
Lemma sample_hz_middle (c : R) : sample_hz c 500 = c.
Proof.
  assert (H500 : INR 500 = 500) by (rewrite INR_IZR_INZ; now f_equal).
  assert (H1000 : INR (PTS - 1) = 1000) by (rewrite INR_IZR_INZ; now f_equal).
  unfold sample_hz, SPAN_HZ. rewrite H500, H1000. lra.
Qed.

Lemma bump_is_gaussian (pattern_power CF_HZ f : R) :
  signal_bump pattern_power CF_HZ f =
    gaussian (-100) (pattern_power + 100) (CF_HZ - 150e3) SIG_W f.
Proof.
  unfold signal_bump, gaussian.
  replace (f - (CF_HZ - 150e3)) with (f - CF_HZ + 150e3) by lra. reflexivity.
Qed.

(** The exponent at the marker line, 150 kHz above the centre of the bump. *)
Lemma exponent_at_marker (CF_HZ : R) :
  - ((CF_HZ - CF_HZ + 150e3) ^ 2) / (2 * SIG_W ^ 2) = -0.045.
Proof. unfold SIG_W. lra. Qed.

Lemma exp_at_marker : 0.955 <= exp (-0.045) < 1.
Proof.
  split.
  - pose proof (exp_ineq1_le (-0.045)). lra.
  - rewrite <- exp_0. apply exp_increasing. lra.
Qed.

Lemma bump_at_marker (pattern_power CF_HZ : R) :
  signal_bump pattern_power CF_HZ CF_HZ = -100 + (pattern_power + 100) * exp (-0.045).
Proof. unfold signal_bump. now rewrite exponent_at_marker. Qed.

Lemma noise_floor_le (z : R) : noise_floor z <= -80.
Proof. unfold noise_floor, clip_above. apply Rmin_r. Qed.

(** A Gaussian with a non-negative amplitude is highest at its centre. *)
Lemma gaussian_peak (base amp centre width f : R) :
  0 <= amp ->
  gaussian base amp centre width f <= gaussian base amp centre width centre /\
  gaussian base amp centre width centre = base + amp.
Proof.
  intros Hamp. unfold gaussian.
  replace (- ((centre - centre) ^ 2) / (2 * width ^ 2)) with 0
    by (unfold Rdiv; ring).
  rewrite exp_0. split; [|ring].
  assert (He : exp (- ((f - centre) ^ 2) / (2 * width ^ 2)) <= 1).
  { rewrite <- exp_0.
    destruct (Req_dec (- ((f - centre) ^ 2) / (2 * width ^ 2)) 0) as [->|Hne];
      [apply Rle_refl|].
    left. apply exp_increasing.
    assert (H : - ((f - centre) ^ 2) / (2 * width ^ 2) <= 0).
    { unfold Rdiv. rewrite <- Ropp_mult_distr_l.
      apply Rge_le, Ropp_0_le_ge_contravar.
      apply Rmult_le_pos; [apply pow2_ge_0|].
      destruct (Req_dec (2 * width ^ 2) 0) as [E|E].
      - rewrite E, Rinv_0. apply Rle_refl.
      - left. apply Rinv_0_lt_compat.
        pose proof (pow2_ge_0 width). lra. }
    lra. }
  nra.
Qed.

(** The sample at the centre of a window centred on the generator's
    frequency. *)
Lemma centre_sample (t : Triggered) (frequency center_hz pattern_power : R)
      (normal : nat -> R) :
  window_centre t frequency center_hz = frequency * 1e9 ->
  nth 500 (trace_y (update_spectrum t frequency center_hz pattern_power normal)) 0 =
    Rmax (noise_floor (normal 500%nat))
         (-100 + (pattern_power + 100) * exp (-0.045)).
Proof.
  intros Hc. rewrite trace_y_eq.
  rewrite nth_map_seq by (unfold PTS; lia).
  now rewrite Hc, sample_hz_middle, bump_at_marker.
Qed.

(** ** The shape of the curve *)

(** C3, as the code has it. At every tick the curve is the pointwise maximum
    of the noise floor and a Gaussian bump over -100 dBm, of amplitude
    [pattern_power + 100] and fixed width [SIG_W], centred 150 kHz below the
    generator's frequency. *)
Theorem spectrum_is_noise_or_bump (t : Triggered)
        (frequency center_hz pattern_power : R) (normal : nat -> R) :
  trace_y (update_spectrum t frequency center_hz pattern_power normal) =
    map (fun i =>
           Rmax (noise_floor (normal i))
                (gaussian (-100) (pattern_power + 100) (frequency * 1e9 - 150e3) SIG_W
                          (sample_hz (window_centre t frequency center_hz) i)))
        (seq 0 PTS).
Proof.
  rewrite trace_y_eq. apply map_ext. intros i.
  now rewrite bump_is_gaussian.
Qed.

(** With the generator at 5.9 GHz, the window centred on it, a last signal
    of -40 dBm and noise draws of 0: the sample at 5.9 GHz is below -40 dBm,
    where a bump centred exactly on 5.9 GHz would put it at -40 dBm. *)
Lemma bump_not_centred_on_vsg :
  let fig := update_spectrum (Some "auto-btn.n_clicks") 5.9 5.9e9 (-40) (fun _ => 0) in
  sample_hz (5.9 * 1e9) 500 = 5.9 * 1e9 /\
  nth 500 (trace_y fig) 0 = -100 + 60 * exp (-0.045) /\
  nth 500 (trace_y fig) 0 < -40 /\
  Rmax (noise_floor 0)
       (gaussian (-100) (-40 + 100) (5.9 * 1e9) SIG_W (sample_hz (5.9 * 1e9) 500)) = -40.
Proof.
  cbv zeta. pose proof exp_at_marker as [Hlo Hhi].
  assert (Hn : noise_floor 0 = -90).
  { unfold noise_floor, clip_above. rewrite Rmin_left; lra. }
  assert (Hy : nth 500 (trace_y (update_spectrum (Some "auto-btn.n_clicks")
                                                 5.9 5.9e9 (-40) (fun _ => 0))) 0
               = -100 + 60 * exp (-0.045)).
  { rewrite centre_sample by reflexivity. rewrite Hn.
    replace (-40 + 100) with 60 by lra. apply Rmax_right. lra. }
  split; [apply sample_hz_middle|]. split; [exact Hy|]. split; [rewrite Hy; lra|].
  rewrite sample_hz_middle, Hn.
  destruct (gaussian_peak (-100) (-40 + 100) (5.9 * 1e9) SIG_W (5.9 * 1e9)) as [_ E];
    [lra|].
  rewrite E. rewrite Rmax_right; lra.
Qed.


(** ** The value at the centre *)

(** C9, as the code has it. With the window centred on the generator's
    frequency and a last signal of at least -79 dBm, the sample at the
    centre frequency is the bump, not the noise: it lies within 4.5 percent
    of the amplitude below the last signal, above every noise sample. *)
Theorem centre_sample_in_peak_range (t : Triggered)
        (frequency center_hz pattern_power : R) (normal : nat -> R) :
  window_centre t frequency center_hz = frequency * 1e9 ->
  -79 <= pattern_power ->
  let y := nth 500 (trace_y (update_spectrum t frequency center_hz pattern_power normal)) 0 in
  sample_hz (window_centre t frequency center_hz) 500 = frequency * 1e9 /\
  y = signal_bump pattern_power (frequency * 1e9) (frequency * 1e9) /\
  pattern_power - 0.045 * (pattern_power + 100) <= y < pattern_power /\
  noise_floor (normal 500%nat) <= -80 < y.
Proof.
  intros Hc Hpp. cbv zeta. pose proof exp_at_marker as [Hlo Hhi].
  pose proof (noise_floor_le (normal 500%nat)) as Hn.
  rewrite (centre_sample _ _ _ _ _ Hc), bump_at_marker.
  assert (Hb : -80 < -100 + (pattern_power + 100) * exp (-0.045)) by nra.
  rewrite Rmax_right by lra.
  split; [rewrite Hc; apply sample_hz_middle|].
  split; [reflexivity|].
  split; [|lra]. split; nra.
Qed.

Lemma centre_sample_in_peak_range_witness :
  let y := nth 500 (trace_y (update_spectrum (Some "auto-btn.n_clicks")
                                             5.9 0 (-40) (fun _ => 0))) 0 in
  sample_hz (window_centre (Some "auto-btn.n_clicks") 5.9 0) 500 = 5.9 * 1e9 /\
  y = signal_bump (-40) (5.9 * 1e9) (5.9 * 1e9) /\
  -40 - 0.045 * (-40 + 100) <= y < -40 /\
  noise_floor 0 <= -80 < y.
Proof.
  apply (centre_sample_in_peak_range (Some "auto-btn.n_clicks") 5.9 0 (-40) (fun _ => 0));
    [reflexivity | lra].
Defined.

(** With a last signal of -95 dBm and noise draws of 0, the sample at the
    centre frequency is the noise floor, -90 dBm, and the bump lies below
    it. *)
Lemma weak_signal_sits_on_noise :
  let fig := update_spectrum (Some "auto-btn.n_clicks") 5.9 5.9e9 (-95) (fun _ => 0) in
  sample_hz (5.9 * 1e9) 500 = 5.9 * 1e9 /\
  nth 500 (trace_y fig) 0 = noise_floor 0 /\
  noise_floor 0 = -90 /\
  signal_bump (-95) (5.9 * 1e9) (5.9 * 1e9) < -95.
Proof.
  cbv zeta. pose proof exp_at_marker as [Hlo Hhi].
  assert (Hn : noise_floor 0 = -90).
  { unfold noise_floor, clip_above. rewrite Rmin_left; lra. }
  split; [apply sample_hz_middle|].
  split; [|split; [exact Hn|rewrite bump_at_marker; lra]].
  rewrite centre_sample by reflexivity. rewrite Hn.
  apply Rmax_left. lra.
Qed.

End SpectrumFacts.

(** * Further facts about the callbacks *)

(** ** The port list *)

Lemma insert_port_perm (s : string) (l : list string) :
  Permutation (insert_port s l) (s :: l).
Proof.
  induction l as [|x l IH]; cbn; [apply Permutation_refl|].
  destruct (String.leb s x); [apply Permutation_refl|].
  apply Permutation_trans with (x :: s :: l);
    [now apply perm_skip | apply perm_swap].
Qed.

Lemma insert_port_sorted (s : string) (l : list string) :
  Sorted (fun a b => String.leb a b = true) l ->
  Sorted (fun a b => String.leb a b = true) (insert_port s l).
Proof.
  induction l as [|x l IH]; intros Hs; cbn.
  - repeat constructor.
  - destruct (String.leb s x) eqn:Hsx.
    + constructor; [exact Hs|]. constructor. exact Hsx.
    + inversion Hs as [|? ? Hl Hhd]; subst.
      constructor; [now apply IH|].
      assert (Hxs : String.leb x s = true).
      { destruct (String.leb_total s x) as [H|H]; [congruence|exact H]. }
      destruct l as [|y l]; cbn; [now constructor|].
      destruct (String.leb s y); constructor; [exact Hxs|].
      now inversion Hhd.
Qed.

(** X1. [list_ports] always offers the simulation option, first; after it
    come exactly the reported devices, each as often as reported, in
    ascending order. With no device the list is the simulation option
    alone. *)
Theorem list_ports_offers (comports : list string) :
  exists devices,
    list_ports comports = SIM_OPTION :: devices /\
    Permutation devices comports /\
    Sorted (fun a b => String.leb a b = true) devices /\
    (comports = [] -> devices = []).
Proof.
  exists (py_sorted comports). split; [reflexivity|].
  split; [|split].
  - induction comports as [|c l IH]; cbn; [constructor|].
    apply Permutation_trans with (c :: py_sorted l);
      [apply insert_port_perm | now apply perm_skip].
  - induction comports as [|c l IH]; cbn; [constructor|].
    now apply insert_port_sorted.
  - now intros ->.
Qed.

(** ** Ticks that take no step *)

Lemma tick_is_not_reset : (prop_id TICK =? "reset-btn.n_clicks") = false.
Proof. reflexivity. Qed.

(** A firing of [pattern] with the store's flag off and a trigger other than
    the reset button changes no global. *)
Lemma fire_inactive (read_table : string -> result DataFrame) (a : App) (t : Triggered) :
  (prop_id t =? "reset-btn.n_clicks") = false ->
  active (scan_state a) = false ->
  globals (fire read_table a (PatternFire t)) = globals a /\
  scan_state (fire read_table a (PatternFire t)) = scan_state a.
Proof.
  intros Ht Hoff. split; [|apply pattern_leaves_store].
  rewrite fire_globals.
  pose proof (pattern_idle t (scan_state a) (globals a)) as E.
  unfold entry_state, entry_globals in E. rewrite Ht in E.
  rewrite E by (now rewrite Hoff). reflexivity.
Qed.

(** X2. After a click on the stop button the store's flag is off, and however
    many timer ticks follow, the globals stay exactly as they were: no point
    is emitted, the cursor and the last signal keep their values and nothing
    is written to the serial port. *)
Theorem stopped_sweep_is_frozen (read_table : string -> result DataFrame)
        (a : App) (n : nat) :
  let a' := run read_table (ScanClick STOP :: repeat (PatternFire TICK) n) a in
  active (scan_state a') = false /\ globals a' = globals a.
Proof.
  cbv zeta.
  change (run read_table (ScanClick STOP :: repeat (PatternFire TICK) n) a)
    with (run read_table (repeat (PatternFire TICK) n) (fire read_table a (ScanClick STOP))).
  assert (H0 : active (scan_state (fire read_table a (ScanClick STOP))) = false)
    by reflexivity.
  change (globals a) with (globals (fire read_table a (ScanClick STOP))).
  revert H0. generalize (fire read_table a (ScanClick STOP)). clear a.
  induction n as [|n IH]; intros a Hoff; [now split|].
  cbn [repeat run fold_left].
  destruct (fire_inactive read_table a TICK tick_is_not_reset Hoff) as [Hg Hs].
  destruct (IH (fire read_table a (PatternFire TICK))) as [H1 H2].
  - now rewrite Hs.
  - unfold run in *. now rewrite H1, H2, Hg.
Qed.

(** X6. A row whose angle is NaN stalls the sweep: with that row at the
    cursor, neither [angles[idx] <= 360] nor [angles[idx] > 360] holds, so a
    tick emits nothing, leaves every global as it was and returns the flag
    as it received it; the sweep neither advances nor stops. *)
Theorem nan_angle_stalls_sweep (t : Triggered) (state : ScanState) (g : Globals) (a : float) :
  (prop_id t =? "reset-btn.n_clicks") = false ->
  nth_error (angles g) (idx g) = Some a ->
  (a <=? 360)%float = false ->
  (360 <? a)%float = false ->
  pattern t state g = (g, Ok (state, outputs_of g)).
Proof.
  intros Ht Ha Hle Hgt.
  pose proof (pattern_idle t state g) as E.
  unfold entry_state, entry_globals in E. rewrite Ht in E.
  rewrite E by (rewrite Ha, Hle; apply andb_false_r).
  now rewrite Ha, Hgt.
Qed.

Lemma nan_angle_stalls_sweep_witness :
  pattern TICK (mkScan true) (boot_globals (nan, -40)%float []) =
    (boot_globals (nan, -40)%float [],
     Ok (mkScan true, outputs_of (boot_globals (nan, -40)%float []))).
Proof.
  apply (nan_angle_stalls_sweep TICK (mkScan true)
           (boot_globals (nan, -40)%float []) nan); reflexivity.
Defined.

(** ** What a firing of [pattern] does to the globals *)

(** On a well-formed table a firing either leaves the globals as the reset
    check left them, or emits the row at the cursor, whose angle is at most
    360. *)
Lemma pattern_effect (t : Triggered) (state : ScanState) (g : Globals) :
  table_wf g ->
  let g1 := entry_globals t g in
  fst (pattern t state g) = g1 \/
  exists a s,
    active (entry_state t state) = true /\
    nth_error (angles g1) (idx g1) = Some a /\
    nth_error (signals g1) (idx g1) = Some s /\
    (a <=? 360)%float = true /\
    fst (pattern t state g) = emit a s (fst (safe_write cmd_STEP g1)).
Proof.
  intros Hwf g1.
  destruct (pattern_total t state g Hwf)
    as [(a & s & Hact & Ha & Hs & Hle & E)|(st' & E & _)]; rewrite E; cbn [fst].
  - right. exists a, s. auto.
  - left. reflexivity.
Qed.

Lemma firstn_snoc {A} (l : list A) (i : nat) (a : A) :
  nth_error l i = Some a -> firstn (i + 1) l = (firstn i l ++ [a])%list.
Proof.
  revert i. induction l as [|x l IH]; intros [|i] H; cbn in *; try discriminate.
  - now inversion H.
  - f_equal. now apply IH.
Qed.

Lemma emit_prefix (a s : float) (g : Globals) :
  nth_error (angles g) (idx g) = Some a ->
  nth_error (signals g) (idx g) = Some s ->
  trace_is_prefix g -> trace_is_prefix (emit a s g).
Proof.
  unfold trace_is_prefix. intros Ha Hs (Hx & Hy & _). cbn.
  rewrite (firstn_snoc _ _ _ Ha), (firstn_snoc _ _ _ Hs), <- Hx, <- Hy.
  repeat split.
  assert (idx g < List.length (angles g)) by (apply nth_error_Some; congruence).
  lia.
Qed.

Lemma same_sweep_prefix (g g' : Globals) :
  same_sweep g g' -> trace_is_prefix g -> trace_is_prefix g'.
Proof.
  unfold same_sweep, trace_is_prefix.
  intros (_ & Ha & Hs & _ & Hi & Hx & Hy) H. now rewrite Ha, Hs, Hi, Hx, Hy.
Qed.

Lemma entry_globals_prefix (t : Triggered) (g : Globals) :
  trace_is_prefix g -> trace_is_prefix (entry_globals t g).
Proof.
  unfold entry_globals. destruct (prop_id t =? "reset-btn.n_clicks"); [|auto].
  intros _. unfold trace_is_prefix. cbn. repeat split. lia.
Qed.

Lemma safe_write_lookup (cmd : string) (g : Globals) (l : Globals -> list float) :
  (l = angles \/ l = signals) ->
  nth_error (l (fst (safe_write cmd g))) (idx (fst (safe_write cmd g))) =
  nth_error (l g) (idx g).
Proof.
  destruct (safe_write_sweep cmd g) as (_ & Ha & Hs & _ & Hi & _).
  intros [-> | ->]; now rewrite ?Ha, ?Hs, Hi.
Qed.

Lemma pattern_keeps_prefix (t : Triggered) (state : ScanState) (g : Globals) :
  table_wf g -> trace_is_prefix g -> trace_is_prefix (fst (pattern t state g)).
Proof.
  intros Hwf Hp.
  pose proof (entry_globals_prefix t g Hp) as H1.
  destruct (pattern_effect t state g Hwf) as [E|(a & s & _ & Ha & Hs & _ & E)];
    rewrite E; [exact H1|].
  apply emit_prefix.
  - now rewrite (safe_write_lookup _ _ angles) by auto.
  - now rewrite (safe_write_lookup _ _ signals) by auto.
  - exact (same_sweep_prefix _ _ (safe_write_sweep cmd_STEP _) H1).
Qed.

(** X3. As long as no file is uploaded, the trace on the screen is a prefix of
    the table: from start-up, after any firings other than uploads, [x_data]
    and [y_data] are the first [idx] angles and signals of the table, and the
    cursor is never past its end. *)
Theorem trace_is_table_prefix (read_table : string -> result DataFrame)
        (row : float * float) (rest : DataFrame) (evs : list Event) :
  forallb (fun ev => negb (is_upload ev)) evs = true ->
  let g := globals (run read_table evs (boot row rest)) in
  x_data g = firstn (idx g) (angles g) /\
  y_data g = firstn (idx g) (signals g) /\
  idx g <= List.length (angles g).
Proof.
  intros Hevs. cbv zeta.
  change (trace_is_prefix (globals (run read_table evs (boot row rest)))).
  assert (H0 : table_wf (globals (boot row rest)) /\
               trace_is_prefix (globals (boot row rest))).
  { split; [apply boot_table_wf|]. unfold trace_is_prefix. cbn. repeat split. lia. }
  revert H0 Hevs. generalize (boot row rest).
  induction evs as [|ev evs IH]; intros a [Hwf Hp] Hevs; [exact Hp|].
  cbn in Hevs. apply andb_true_iff in Hevs. destruct Hevs as [Hev Hevs].
  cbn [run fold_left]. apply IH; [|exact Hevs].
  split; [now apply fire_keeps_table|].
  rewrite fire_globals. destruct ev; try discriminate; auto.
  - exact (same_sweep_prefix _ _ (connect_serial_sweep _ _ _) Hp).
  - exact (same_sweep_prefix _ _ (motor_control_sweep _ _) Hp).
  - now apply pattern_keeps_prefix.
Qed.

Lemma trace_is_table_prefix_witness :
  let g := globals (run (fun _ => Ok [])
                        [ScanClick START; PatternFire TICK; MotorClick None; PatternFire TICK]
                        (boot (0, -40)%float [(10, -42)%float])) in
  x_data g = firstn (idx g) (angles g) /\
  y_data g = firstn (idx g) (signals g) /\
  idx g <= List.length (angles g).
Proof.
  apply (trace_is_table_prefix (fun _ => Ok []) (0, -40)%float [(10, -42)%float]
           [ScanClick START; PatternFire TICK; MotorClick None; PatternFire TICK]).
  reflexivity.
Defined.

(** X4. No angle above 360 (and no NaN) is ever plotted: from start-up,
    whatever callbacks fire, uploads included, every element of [x_data]
    compares at most 360. *)
Theorem plotted_angles_at_most_360 (read_table : string -> result DataFrame)
        (row : float * float) (rest : DataFrame) (evs : list Event) :
  Forall (fun a => (a <=? 360)%float = true)
         (x_data (globals (run read_table evs (boot row rest)))).
Proof.
  change (plotted_in_range (globals (run read_table evs (boot row rest)))).
  assert (H0 : table_wf (globals (boot row rest)) /\
               plotted_in_range (globals (boot row rest))).
  { split; [apply boot_table_wf | constructor]. }
  revert H0. generalize (boot row rest).
  induction evs as [|ev evs IH]; intros a [Hwf Hp]; [exact Hp|].
  cbn [run fold_left]. apply IH.
  split; [now apply fire_keeps_table|].
  rewrite fire_globals. unfold plotted_in_range in *. destruct ev; auto.
  - destruct (connect_serial_sweep (fun _ => opening) port (globals a))
      as (_ & _ & _ & _ & _ & Hx & _). now rewrite Hx.
  - destruct (motor_control_sweep t (globals a)) as (_ & _ & _ & _ & _ & Hx & _).
    now rewrite Hx.
  - assert (H1 : Forall (fun a => (a <=? 360)%float = true)
                        (x_data (entry_globals t (globals a)))).
    { unfold entry_globals. destruct (prop_id t =? "reset-btn.n_clicks"); [constructor|auto]. }
    destruct (pattern_effect t (scan_state a) (globals a) Hwf)
      as [E|(x & s & _ & _ & _ & Hle & E)]; rewrite E; [exact H1|].
    cbn [emit x_data].
    destruct (safe_write_sweep cmd_STEP (entry_globals t (globals a)))
      as (_ & _ & _ & _ & _ & Hx & _).
    rewrite Hx. apply Forall_app. split; [exact H1|]. now constructor.
  - destruct (update_csv_cases read_table contents filename (globals a))
      as (g' & status & E & [->|[->|(r & rs & ->)]]); rewrite E; cbn; auto.
Qed.

(** ** A whole sweep *)

Lemma skipn_cons_nth_error {A} (l : list A) (i : nat) (a : A) :
  nth_error l i = Some a -> skipn i l = a :: skipn (S i) l.
Proof.
  revert i. induction l as [|x l IH]; intros [|i] H; cbn in *; try discriminate.
  - now inversion H.
  - now apply IH.
Qed.

Lemma last_cons_default {A} (l : list A) (a d : A) : last (a :: l) d = last l a.
Proof.
  revert a d. induction l as [|x l IH]; intros a d; [reflexivity|].
  change (last (a :: x :: l) d) with (last (x :: l) d).
  rewrite (IH x d). symmetry. apply (IH x a).
Qed.

Lemma run_app (read_table : string -> result DataFrame) (l1 l2 : list Event) (a : App) :
  run read_table (l1 ++ l2)%list a = run read_table l2 (run read_table l1 a).
Proof. unfold run. apply fold_left_app. Qed.

(** A tick of a running sweep with a row at the cursor whose angle is at most
    360. *)
Lemma fire_tick_steps (read_table : string -> result DataFrame) (a : App) (x s : float) :
  active (scan_state a) = true ->
  nth_error (angles (globals a)) (idx (globals a)) = Some x ->
  nth_error (signals (globals a)) (idx (globals a)) = Some s ->
  (x <=? 360)%float = true ->
  globals (fire read_table a (PatternFire TICK)) =
    emit x s (fst (safe_write cmd_STEP (globals a))) /\
  scan_state (fire read_table a (PatternFire TICK)) = scan_state a.
Proof.
  intros Hact Hx Hs Hle. split; [|apply pattern_leaves_store].
  rewrite fire_globals.
  pose proof (pattern_step TICK (scan_state a) (globals a) x s) as E.
  unfold entry_state, entry_globals in E. rewrite tick_is_not_reset in E.
  now rewrite (E Hact Hx Hs Hle).
Qed.

(** A tick with the cursor at or past the end of the table. *)
Lemma fire_tick_at_end (read_table : string -> result DataFrame) (a : App) :
  List.length (angles (globals a)) <= idx (globals a) ->
  globals (fire read_table a (PatternFire TICK)) = globals a.
Proof.
  intros Hend. apply nth_error_None in Hend.
  rewrite fire_globals.
  pose proof (pattern_idle TICK (scan_state a) (globals a)) as E.
  unfold entry_state, entry_globals in E. rewrite tick_is_not_reset in E.
  rewrite E by (rewrite Hend; apply andb_false_r). reflexivity.
Qed.

Lemma ticks_at_end (read_table : string -> result DataFrame) (m : nat) (a : App) :
  List.length (angles (globals a)) <= idx (globals a) ->
  globals (run read_table (repeat (PatternFire TICK) m) a) = globals a.
Proof.
  revert a. induction m as [|m IH]; intros a Hend; [reflexivity|].
  cbn [repeat run fold_left].
  pose proof (fire_tick_at_end read_table a Hend) as E.
  unfold run in IH. rewrite IH; [exact E|]. now rewrite E.
Qed.

(** [k] ticks of a running sweep over [k] rows whose angles are at most 360. *)
Lemma ticks_advance (read_table : string -> result DataFrame) (k : nat) (a : App) :
  active (scan_state a) = true ->
  table_wf (globals a) ->
  idx (globals a) + k <= List.length (angles (globals a)) ->
  Forall (fun x => (x <=? 360)%float = true) (angles (globals a)) ->
  let g := globals a in
  let g' := globals (run read_table (repeat (PatternFire TICK) k) a) in
  idx g' = idx g + k /\
  x_data g' = (x_data g ++ firstn k (skipn (idx g) (angles g)))%list /\
  y_data g' = (y_data g ++ firstn k (skipn (idx g) (signals g)))%list /\
  pattern_power g' = last (firstn k (skipn (idx g) (signals g))) (pattern_power g) /\
  angles g' = angles g /\ signals g' = signals g.
Proof.
  revert a. induction k as [|k IH]; intros a Hact Hwf Hlen Hall; cbv zeta.
  - cbn. rewrite !app_nil_r. repeat split. lia.
  - assert (Hlt : idx (globals a) < List.length (angles (globals a))) by lia.
    destruct (nth_error (angles (globals a)) (idx (globals a))) as [x|] eqn:Hx;
      [|apply nth_error_None in Hx; lia].
    destruct (table_wf_signal _ _ _ Hwf Hx) as [s Hs].
    assert (Hle : (x <=? 360)%float = true).
    { rewrite Forall_forall in Hall. apply Hall. eapply nth_error_In; eauto. }
    destruct (fire_tick_steps read_table a x s Hact Hx Hs Hle) as [Eg Es].
    destruct (safe_write_sweep cmd_STEP (globals a))
      as (_ & Ha' & Hs' & _ & Hi' & Hx' & Hy').
    set (a1 := fire read_table a (PatternFire TICK)) in *.
    assert (Ea : angles (globals a1) = angles (globals a))
      by (rewrite Eg; cbn [emit angles]; exact Ha').
    assert (Esg : signals (globals a1) = signals (globals a))
      by (rewrite Eg; cbn [emit signals]; exact Hs').
    assert (Ei : idx (globals a1) = idx (globals a) + 1)
      by (rewrite Eg; cbn [emit idx]; now rewrite Hi').
    cbn [repeat run fold_left]. fold a1.
    destruct (IH a1) as (I1 & I2 & I3 & I4 & I5 & I6).
    + now rewrite Es.
    + unfold table_wf. now rewrite Ea, Esg.
    + rewrite Ei, Ea. lia.
    + now rewrite Ea.
    + unfold run in *. rewrite I1, I2, I3, I4, I5, I6, Ea, Esg, Ei.
      rewrite (skipn_cons_nth_error _ _ _ Hx), (skipn_cons_nth_error _ _ _ Hs).
      replace (idx (globals a) + 1) with (S (idx (globals a))) by lia.
      cbn [firstn]. rewrite last_cons_default.
      rewrite Eg. cbn [emit x_data y_data pattern_power]. rewrite Hx', Hy'.
      rewrite <- !app_assoc. cbn [app]. repeat split. lia.
Qed.

(** X5. A whole sweep plots the whole table. From start-up, on a table whose
    angles are all at most 360, a click on start followed by at least as many
    ticks as the table has rows leaves [x_data] equal to the angle column,
    [y_data] equal to the signal column, the cursor at the end of the table
    and [pattern_power] at the last signal; ticks beyond the end change
    nothing. *)
Theorem full_sweep_plots_table (read_table : string -> result DataFrame)
        (row : float * float) (rest : DataFrame) (n : nat) :
  Forall (fun r => (fst r <=? 360)%float = true) (row :: rest) ->
  List.length (row :: rest) <= n ->
  let g := globals (run read_table (ScanClick START :: repeat (PatternFire TICK) n)
                        (boot row rest)) in
  x_data g = column_Angle (row :: rest) /\
  y_data g = column_Signal (row :: rest) /\
  idx g = List.length (row :: rest) /\
  pattern_power g = last (column_Signal (row :: rest)) (snd row).
Proof.
  intros Hall Hn. cbv zeta.
  set (len := List.length (row :: rest)) in *.
  replace n with (len + (n - len)) by lia.
  rewrite repeat_app.
  change (run read_table (ScanClick START :: (repeat (PatternFire TICK) len ++
                                              repeat (PatternFire TICK) (n - len))%list)
              (boot row rest))
    with (run read_table (repeat (PatternFire TICK) len ++
                          repeat (PatternFire TICK) (n - len))%list
              (fire read_table (boot row rest) (ScanClick START))).
  rewrite run_app.
  set (a0 := fire read_table (boot row rest) (ScanClick START)).
  assert (Hlen : List.length (angles (globals a0)) = len).
  { unfold len. cbn. now rewrite length_map. }
  destruct (ticks_advance read_table len a0) as (I1 & I2 & I3 & I4 & I5 & I6).
  - reflexivity.
  - apply boot_table_wf.
  - rewrite Hlen. cbn. lia.
  - change (angles (globals a0)) with (map fst (row :: rest)).
    apply Forall_map. exact Hall.
  - rewrite ticks_at_end by (rewrite I1, I5, Hlen; cbn; lia).
    rewrite I1, I2, I3, I4.
    change (idx (globals a0)) with 0. change (x_data (globals a0)) with (@nil float).
    change (y_data (globals a0)) with (@nil float).
    change (angles (globals a0)) with (column_Angle (row :: rest)).
    change (signals (globals a0)) with (column_Signal (row :: rest)).
    change (pattern_power (globals a0)) with (snd row).
    cbn [skipn app]. 
    assert (L1 : List.length (column_Angle (row :: rest)) = len)
      by (unfold column_Angle; now rewrite length_map).
    assert (L2 : List.length (column_Signal (row :: rest)) = len)
      by (unfold column_Signal; now rewrite length_map).
    assert (F1 : firstn len (column_Angle (row :: rest)) = column_Angle (row :: rest))
      by (rewrite <- L1; apply firstn_all).
    assert (F2 : firstn len (column_Signal (row :: rest)) = column_Signal (row :: rest))
      by (rewrite <- L2; apply firstn_all).
    rewrite F1, F2. repeat split.
Qed.

Lemma full_sweep_plots_table_witness :
  let g := globals (run (fun _ => Ok []) (ScanClick START :: repeat (PatternFire TICK) 5)
                        (boot (0, -40)%float [(10, -42)%float])) in
  x_data g = column_Angle [(0, -40); (10, -42)]%float /\
  y_data g = column_Signal [(0, -40); (10, -42)]%float /\
  idx g = List.length [(0, -40); (10, -42)]%float /\
  pattern_power g = last (column_Signal [(0, -40); (10, -42)]%float) (snd (0, -40)%float).
Proof.
  apply (full_sweep_plots_table (fun _ => Ok []) (0, -40)%float [(10, -42)%float] 5).
  - repeat constructor.
  - cbn. lia.
Defined.

(** ** Uploads *)

Lemma parse_upload_result (read_table : string -> result DataFrame)
      (contents : string) (g : Globals) (r : result DataFrame) :
  snd (parse_upload read_table contents g) = r ->
  parse_upload read_table contents g = (g, r).
Proof.
  intros H. pose proof (parse_upload_globals read_table contents g) as Hg.
  destruct (parse_upload read_table contents g) as [g0 r0]. cbn in Hg, H.
  now subst.
Qed.

(** X7. An upload that parses to a table with at least one row replaces [df],
    [angles] and [signals] by the new table and sets [pattern_power] to its
    first signal. It does not touch the cursor or the trace: the points
    already plotted stay, and the sweep goes on from the same row number of
    the new table. *)
Theorem upload_replaces_table_keeps_cursor
        (read_table : string -> result DataFrame)
        (contents filename : string) (g : Globals)
        (row : float * float) (rest : DataFrame) :
  snd (parse_upload read_table contents g) = Ok (row :: rest) ->
  exists g',
    update_csv read_table (Some contents) filename g =
      (g', Ok ("File '" ++ filename ++ "' uploaded successfully.")) /\
    df g' = row :: rest /\
    angles g' = map fst (row :: rest) /\
    signals g' = map snd (row :: rest) /\
    pattern_power g' = snd row /\
    idx g' = idx g /\ x_data g' = x_data g /\ y_data g' = y_data g /\
    ser g' = ser g /\ simulation g' = simulation g /\ wire g' = wire g.
Proof.
  intros H. apply parse_upload_result in H.
  eexists. split; [apply update_csv_rows; exact H|].
  cbn. repeat split.
Qed.

Lemma upload_replaces_table_keeps_cursor_witness :
  exists g',
    update_csv (fun _ => Ok [(5, -30); (15, -31)]%float)
               (Some "data:text/csv;base64,QQ==") "new.csv" (set_idx 1 demo_globals) =
      (g', Ok ("File '" ++ "new.csv" ++ "' uploaded successfully.")) /\
    df g' = [(5, -30); (15, -31)]%float /\
    angles g' = map fst [(5, -30); (15, -31)]%float /\
    signals g' = map snd [(5, -30); (15, -31)]%float /\
    pattern_power g' = snd (5, -30)%float /\
    idx g' = 1 /\ x_data g' = [] /\ y_data g' = [] /\
    ser g' = None /\ simulation g' = true /\ wire g' = [].
Proof.
  apply (upload_replaces_table_keeps_cursor
           (fun _ => Ok [(5, -30); (15, -31)]%float)
           "data:text/csv;base64,QQ==" "new.csv" (set_idx 1 demo_globals)
           (5, -30)%float [(15, -31)%float]).
  reflexivity.
Defined.

(** X8. An upload that parses to a table without rows is reported as
    ["Error processing file: list index out of range"], yet [df], [angles] and
    [signals] are already empty by then while [pattern_power], the cursor and
    the trace keep their values. From then on no tick emits anything, whatever
    the flag. *)
Theorem empty_upload_halts_sweep (read_table : string -> result DataFrame)
        (a : App) (contents filename : string) (n : nat) :
  snd (parse_upload read_table contents (globals a)) = Ok [] ->
  let a1 := fire read_table a (UploadFile (Some contents) filename) in
  upload_status a1 = "Error processing file: list index out of range" /\
  globals a1 = install_empty (globals a) /\
  globals (run read_table (repeat (PatternFire TICK) n) a1) = globals a1.
Proof.
  intros H. apply parse_upload_result in H. cbv zeta.
  assert (E : fire read_table a (UploadFile (Some contents) filename) =
              mkApp (install_empty (globals a)) (scan_state a) (frequency_state a)
                    (spectrum_axis a) (serial_status a)
                    "Error processing file: list index out of range" (pattern_graph a)).
  { cbn [fire]. now rewrite (update_csv_no_rows read_table contents filename _ H). }
  rewrite E. cbn [upload_status globals]. repeat split.
  apply ticks_at_end. cbn. lia.
Qed.

Lemma empty_upload_halts_sweep_witness :
  let a1 := fire (fun _ => Ok []) (boot (0, -40)%float [(10, -42)%float])
                 (UploadFile (Some "data:text/csv;base64,QQ==") "empty.csv") in
  upload_status a1 = "Error processing file: list index out of range" /\
  globals a1 = install_empty (globals (boot (0, -40)%float [(10, -42)%float])) /\
  globals (run (fun _ => Ok []) (repeat (PatternFire TICK) 3) a1) = globals a1.
Proof.
  apply (empty_upload_halts_sweep (fun _ => Ok []) (boot (0, -40)%float [(10, -42)%float])
           "data:text/csv;base64,QQ==" "empty.csv" 3).
  reflexivity.
Defined.

Lemma split_on_length (c : ascii) (s : string) :
  List.length (split_on c s) = S (count_char c s).
Proof.
  induction s as [|a s IH]; [reflexivity|].
  cbn [split_on count_char]. destruct (Ascii.eqb a c).
  - cbn. now rewrite IH.
  - destruct (split_on c s) as [|p ps]; [discriminate IH|]. cbn in *. exact IH.
Qed.

(** X9. Upload contents that do not hold exactly one comma are rejected before
    any decoding: whatever the decoder would make of them, the status is an
    error message and no global changes. *)
Theorem upload_needs_one_comma (read_table : string -> result DataFrame)
        (contents filename : string) (g : Globals) :
  count_char ","%char contents <> 1 ->
  exists msg,
    update_csv read_table (Some contents) filename g =
      (g, Ok ("Error processing file: " ++ msg)).
Proof.
  intros Hc.
  assert (E : exists e, parse_upload read_table contents g = (g, Raise e)).
  { unfold parse_upload, unpack_contents.
    pose proof (split_on_length ","%char contents) as Hl.
    destruct (split_on ","%char contents) as [|c1 [|c2 [|c3 l]]];
      try (eexists; reflexivity).
    cbn in Hl. exfalso. apply Hc. congruence. }
  destruct E as [e E]. exists (exn_msg e).
  now apply update_csv_parse_error.
Qed.

Lemma upload_needs_one_comma_witness :
  exists msg,
    update_csv (fun _ => Ok [(5, -30)]%float) (Some "QW5nbGUsU2lnbmFs") "raw.csv"
               demo_globals =
      (demo_globals, Ok ("Error processing file: " ++ msg)).
Proof.
  apply (upload_needs_one_comma (fun _ => Ok [(5, -30)]%float)
           "QW5nbGUsU2lnbmFs" "raw.csv" demo_globals).
  cbn. discriminate.
Defined.

(** ** The serial port *)

Lemma safe_write_open (cmd p : string) (g : Globals) :
  connected_to p g ->
  safe_write cmd g = (set_wire (wire g ++ [(p, cmd)])%list g, Ok tt).
Proof.
  unfold connected_to, safe_write, modify. intros [Hs Hsim].
  rewrite Hs, Hsim. reflexivity.
Qed.

(** What [safe_write] adds to the wire: nothing, or the command, to the port
    that is open. *)
Lemma safe_write_wire (cmd : string) (g : Globals) :
  wire (fst (safe_write cmd g)) = wire g \/
  exists p, connected_to p g /\
            wire (fst (safe_write cmd g)) = (wire g ++ [(p, cmd)])%list.
Proof.
  unfold safe_write, modify, connected_to. cbn [fst].
  destruct (ser g) as [[p o]|]; [|now left].
  destruct (simulation g), o; cbn; auto.
  right. exists p. auto.
Qed.

Lemma open_port_wire (oracle : string -> option exn) (port : string) (g : Globals) :
  wire (fst (open_port oracle port g)) = wire g.
Proof.
  unfold open_port.
  destruct (port =? SIM_OPTION).
  - unfold bind. rewrite close_if_open_eq. reflexivity.
  - unfold bind at 1. unfold modify at 1. unfold bind at 1.
    rewrite close_if_open_eq.
    destruct (oracle port); reflexivity.
Qed.

Lemma connect_serial_wire (oracle : string -> option exn) (port : string) (g : Globals) :
  wire (fst (connect_serial oracle port g)) = wire g.
Proof.
  pose proof (open_port_wire oracle port g) as H.
  unfold connect_serial, try_except, bind.
  destruct (open_port oracle port g) as [g' [[]|e]]; cbn [fst] in *.
  - exact H.
  - destruct (is_SerialException e); exact H.
Qed.

Lemma connect_sim_eq (oracle : string -> option exn) (g : Globals) :
  connect_serial oracle SIM_OPTION g =
    (set_simulation true (set_ser None g), Ok "Simulation").
Proof.
  unfold connect_serial, try_except, open_port.
  rewrite String.eqb_refl. unfold bind. rewrite close_if_open_eq. reflexivity.
Qed.


(** X10. Connecting with the simulation option selected never fails and never
    tries to open a port, whatever the serial library would do: the status
    reads ["Simulation"], no port is bound, the simulation flag is set, and
    until the next connect no callback writes anything. *)
Theorem simulate_option_goes_quiet (read_table : string -> result DataFrame)
        (a : App) (opening : option exn) (evs : list Event) :
  table_wf (globals a) ->
  forallb (fun ev => negb (is_connect ev)) evs = true ->
  let a' := fire read_table a (ConnectClick SIM_OPTION opening) in
  serial_status a' = "Simulation" /\
  ser (globals a') = None /\
  simulation (globals a') = true /\
  wire (globals (run read_table evs a')) = wire (globals a) /\
  simulation (globals (run read_table evs a')) = true.
Proof.
  intros Hwf Hevs. cbv zeta.
  assert (E : fire read_table a (ConnectClick SIM_OPTION opening) =
              mkApp (set_simulation true (set_ser None (globals a)))
                    (scan_state a) (frequency_state a) (spectrum_axis a)
                    "Simulation" (upload_status a) (pattern_graph a)).
  { cbn [fire]. now rewrite connect_sim_eq. }
  rewrite E. cbn [serial_status globals].
  split; [reflexivity|]. split; [reflexivity|]. split; [reflexivity|].
  match goal with |- context [run read_table evs ?a1] =>
    destruct (run_quiet read_table evs a1) as [Hw Hs]
  end; [exact Hwf | exact I | exact Hevs |].
  rewrite Hw, Hs. split; reflexivity.
Qed.

Lemma simulate_option_goes_quiet_witness :
  let evs := [MotorClick (Some "ccw-btn.n_clicks"); ScanClick START; PatternFire TICK] in
  let a := fire (fun _ => Ok []) (boot (0, -40)%float [(10, -42)%float])
                (ConnectClick "COM3" None) in
  let a' := fire (fun _ => Ok []) a (ConnectClick SIM_OPTION (Some port_busy)) in
  serial_status a' = "Simulation" /\
  ser (globals a') = None /\
  simulation (globals a') = true /\
  wire (globals (run (fun _ => Ok []) evs a')) = wire (globals a) /\
  simulation (globals (run (fun _ => Ok []) evs a')) = true.
Proof.
  apply (simulate_option_goes_quiet (fun _ => Ok [])
           (fire (fun _ => Ok []) (boot (0, -40)%float [(10, -42)%float])
                 (ConnectClick "COM3" None))
           (Some port_busy)
           [MotorClick (Some "ccw-btn.n_clicks"); ScanClick START; PatternFire TICK]);
    reflexivity.
Defined.




(** X12. On an open port every step of the sweep sends exactly one
    ["STEP\n"], and a firing of [pattern] that takes no step sends nothing:
    the wire grows by as many [STEP] commands as the cursor advances. *)
Theorem sweep_step_sends_STEP (t : Triggered) (state : ScanState) (g : Globals)
        (p : string) :
  table_wf g ->
  connected_to p g ->
  let g' := fst (pattern t state g) in
  wire g' = (wire g ++ repeat (p, cmd_STEP) (idx g' - idx g))%list /\
  (idx g' = idx g + 1 \/ idx g' = idx g \/ idx g' = 0).
Proof.
  intros Hwf Hc. cbv zeta.
  assert (H1 : wire (entry_globals t g) = wire g /\
               connected_to p (entry_globals t g) /\
               (idx (entry_globals t g) = idx g \/ idx (entry_globals t g) = 0) /\
               (idx (entry_globals t g) = idx g \/
                active (entry_state t state) = false)).
  { unfold entry_globals, entry_state.
    destruct (prop_id t =? "reset-btn.n_clicks"); cbn; auto. }
  destruct H1 as (Hw1 & Hc1 & Hi1 & Hr).
  destruct (pattern_effect t state g Hwf) as [E|(a & s & Hact & _ & _ & _ & E)];
    rewrite E.
  - rewrite Hw1. destruct Hi1 as [-> | ->].
    + rewrite Nat.sub_diag. cbn. rewrite app_nil_r. auto.
    + cbn. rewrite app_nil_r. auto.
  - destruct Hr as [Hi|Hoff]; [|congruence].
    rewrite (safe_write_open _ p _ Hc1). cbn [fst emit wire idx set_wire].
    rewrite Hw1, Hi.
    replace (idx g + 1 - idx g) with 1 by lia. cbn. auto.
Qed.

Lemma sweep_step_sends_STEP_witness :
  let g := fst (connect_serial (fun _ => None) "COM3" demo_globals) in
  let g' := fst (pattern TICK (mkScan true) g) in
  wire g' = (wire g ++ repeat ("COM3", cmd_STEP) (idx g' - idx g))%list /\
  (idx g' = idx g + 1 \/ idx g' = idx g \/ idx g' = 0).
Proof.
  apply (sweep_step_sends_STEP TICK (mkScan true)
           (fst (connect_serial (fun _ => None) "COM3" demo_globals)) "COM3").
  - reflexivity.
  - split; reflexivity.
Defined.

Lemma motor_control_wire (t : Triggered) (g : Globals) :
  wire (fst (motor_control t g)) = wire g \/
  exists p c, In c [cmd_CW; cmd_CCW; cmd_STOP] /\
              wire (fst (motor_control t g)) = (wire g ++ [(p, c)])%list.
Proof.
  unfold motor_control, bind.
  destruct (before_dot (prop_id t) =? "cw-btn");
    [|destruct (before_dot (prop_id t) =? "ccw-btn");
      [|destruct (before_dot (prop_id t) =? "mot-stop-btn"); [|now left]]];
    match goal with
    | |- context [safe_write ?c g] =>
        rewrite (safe_write_eq c g); cbn [fst wire set_wire];
        destruct (safe_write_wire c g) as [H|(p & _ & H)];
        [left; exact H | right; exists p, c; split; [cbn; auto|exact H]]
    end.
Qed.

(** X13. Nothing but the four commands ever goes out: from start-up, whatever
    callbacks fire, every entry of the wire is ["STEP\n"], [":CW\n"],
    [":CCW\n"] or [":STOP\n"]. *)
Theorem wire_vocabulary (read_table : string -> result DataFrame)
        (row : float * float) (rest : DataFrame) (evs : list Event) :
  Forall (fun sent => In (snd sent) wire_commands)
         (wire (globals (run read_table evs (boot row rest)))).
Proof.
  assert (H0 : table_wf (globals (boot row rest)) /\
               Forall (fun sent => In (snd sent) wire_commands)
                      (wire (globals (boot row rest)))).
  { split; [apply boot_table_wf | constructor]. }
  revert H0. generalize (boot row rest).
  induction evs as [|ev evs IH]; intros a [Hwf Hp]; [exact Hp|].
  cbn [run fold_left]. apply IH.
  split; [now apply fire_keeps_table|].
  rewrite fire_globals. destruct ev; auto.
  - now rewrite connect_serial_wire.
  - destruct (motor_control_wire t (globals a)) as [E|(p & c & Hc & E)]; rewrite E;
      [exact Hp|].
    apply Forall_app. split; [exact Hp|]. constructor; [|constructor].
    cbn in *. intuition.
  - assert (H1 : wire (entry_globals t (globals a)) = wire (globals a)).
    { unfold entry_globals. destruct (prop_id t =? "reset-btn.n_clicks"); reflexivity. }
    destruct (pattern_effect t (scan_state a) (globals a) Hwf)
      as [E|(x & s & _ & _ & _ & _ & E)]; rewrite E; [now rewrite H1|].
    cbn [emit wire].
    destruct (safe_write_wire cmd_STEP (entry_globals t (globals a)))
      as [E'|(p & _ & E')]; rewrite E', H1; [exact Hp|].
    apply Forall_app. split; [exact Hp|]. constructor; [|constructor].
    cbn. auto.
  - destruct (update_csv_cases read_table contents filename (globals a))
      as (g' & status & E & [->|[->|(r & rs & ->)]]); rewrite E; cbn; auto.
Qed.

(** ** One step of the frequency *)

Lemma finite_compare_eq_r (s : bool) (m : positive) (e : Z) (y : spec_float) :
  SFcompare (S754_finite s m e) y = Some Eq -> y = S754_finite s m e.
Proof.
  destruct y as [s'|s'| |s' m' e']; cbn; try (destruct s, s'; discriminate);
    try (destruct s; discriminate).
  destruct s, s'; try discriminate;
    destruct (Z.compare e e') eqn:He; try discriminate;
    intros H; apply Z.compare_eq in He; subst e';
    assert (Hm : Pos.compare m m' = Eq)
      by (unfold Pos.compare; destruct (Pos.compare_cont Eq m m'); cbn in H; congruence);
    apply Pos.compare_eq in Hm; now subst.
Qed.

Lemma finite_compare_eq_l (s : bool) (m : positive) (e : Z) (y : spec_float) :
  SFcompare y (S754_finite s m e) = Some Eq -> y = S754_finite s m e.
Proof.
  destruct y as [s'|s'| |s' m' e']; cbn; try (destruct s, s'; discriminate);
    try (destruct s; discriminate); try (destruct s'; discriminate).
  destruct s, s'; try discriminate;
    destruct (Z.compare e' e) eqn:He; try discriminate;
    intros H; apply Z.compare_eq in He; subst e';
    assert (Hm : Pos.compare m' m = Eq)
      by (unfold Pos.compare; destruct (Pos.compare_cont Eq m' m); cbn in H; congruence);
    apply Pos.compare_eq in Hm; now subst.
Qed.

(** A float that is at least 5.8 and not above it is 5.8; likewise for 6.0
    from below. *)
Lemma float_at_lower_edge (x : float) :
  (5.8 <=? x)%float = true -> (5.8 <? x)%float = false -> x = 5.8%float.
Proof.
  rewrite leb_spec, ltb_spec. unfold SFleb, SFltb.
  destruct (SFcompare (Prim2SF 5.8) (Prim2SF x)) as [[]|] eqn:Hc; try discriminate.
  intros _ _. apply Prim2SF_inj.
  change (Prim2SF 5.8) with (S754_finite false 6530219459687219 (-50)) in *.
  now apply finite_compare_eq_r in Hc.
Qed.

Lemma float_at_upper_edge (x : float) :
  (x <=? 6.0)%float = true -> (x <? 6.0)%float = false -> x = 6.0%float.
Proof.
  rewrite leb_spec, ltb_spec. unfold SFleb, SFltb.
  destruct (SFcompare (Prim2SF x) (Prim2SF 6.0)) as [[]|] eqn:Hc; try discriminate.
  intros _ _. apply Prim2SF_inj.
  change (Prim2SF 6.0) with (S754_finite false 6755399441055744 (-50)) in *.
  now apply finite_compare_eq_l in Hc.
Qed.

(** The clamp leaves alone what is already in the band. *)
Lemma clamp_in_band_id (x : float) :
  in_band x = true -> py_max 5.8 (py_min 6.0 x) = x.
Proof.
  unfold in_band. intros H. apply andb_true_iff in H. destruct H as [Hlo Hhi].
  unfold py_max, py_min.
  destruct (x <? 6.0)%float eqn:H1.
  - destruct (5.8 <? x)%float eqn:H2; [reflexivity|].
    symmetry. now apply float_at_lower_edge.
  - rewrite (float_at_upper_edge x Hhi H1). reflexivity.
Qed.

(** X14. A click moves the frequency by exactly one step of 0.01 GHz, up for
    freq-up-btn and down for freq-down-btn, whenever the sum computed lies in
    the band: the clamp then changes nothing. A firing by anything else
    leaves an in-band frequency as it is. *)
Theorem frequency_click_moves_one_step (t : Triggered) (f : float) :
  let target :=
    if before_dot (prop_id t) =? "freq-up-btn" then (f + 0.01)%float
    else if before_dot (prop_id t) =? "freq-down-btn" then (f - 0.01)%float
    else f in
  in_band target = true ->
  update_frequency t f = target.
Proof.
  cbv zeta. intros H. unfold update_frequency.
  now apply clamp_in_band_id.
Qed.

Lemma frequency_click_moves_one_step_witness :
  update_frequency (Some "freq-down-btn.n_clicks") 5.9 = (5.9 - 0.01)%float.
Proof.
  apply (frequency_click_moves_one_step (Some "freq-down-btn.n_clicks") 5.9%float).
  reflexivity.
Defined.

(** * Further facts about the synthetic spectrum *)

Module SpectrumBounds.

Import Spectrum.
Local Open Scope R_scope.








End SpectrumBounds.
